(** * documentstack/sdk-go: the client, its result and its errors

    A shallow embedding of [New], [Client.Generate] and
    [Client.parseErrorResponse] (client source file), of the error types
    and their category predicates (errors.go) and of the data types
    (types.go), together with the parts of the Go standard library whose
    behaviour decides what these functions return: [strconv.ParseInt] and
    [strconv.Atoi], [strings.TrimSuffix], [url.PathEscape],
    [http.Header], the one regular expression the client compiles, and
    [json.Unmarshal] into [APIErrorResponse].

    Go's [int] and [int64] are 64-bit two's complement integers, written
    as [Z] with the wrap-around spelled out where the code can overflow.
    Go strings are byte strings: [string], one [ascii] per byte. *)

From Stdlib Require Import ZArith List String Ascii Bool Lia.
From stdpp Require Import base option gmap strings.

Import ListNotations.
Set Warnings "-register-all".
Local Open Scope string_scope.
Local Open Scope Z_scope.

(* ===================================================================== *)
(** ** Machine integers *)

Module Int64.
Definition min : Z := - 2 ^ 63.
Definition max : Z := 2 ^ 63 - 1.

(** Two's complement wrap-around of a mathematical integer. *)
Definition wrap (z : Z) : Z := (z + 2 ^ 63) mod 2 ^ 64 - 2 ^ 63.

Definition in_range (z : Z) : Prop := min <= z <= max.
End Int64.

Module Uint64.
Definition max : Z := 2 ^ 64 - 1.
End Uint64.

(* ===================================================================== *)
(** ** strconv *)

Module strconv.

(** The [Err] field of a [*strconv.NumError]. *)
Inductive NumError := ErrSyntax | ErrRange.

Definition is_digit (c : ascii) : bool :=
  ((48 <=? nat_of_ascii c) && (nat_of_ascii c <=? 57))%nat.

Definition digit_val (c : ascii) : Z := Z.of_nat (nat_of_ascii c) - 48.

(** The loop of [ParseUint] for base 10 and bit size 64. [n] is the
    accumulator. A byte that is not a decimal digit is a syntax error;
    an overflow is reported at the digit where it happens, with the
    largest value, without looking at the bytes after it. *)
Fixpoint parseUintLoop (s : string) (n : Z) : Z * option NumError :=
  match s with
  | EmptyString => (n, None)
  | String c rest =>
      if negb (is_digit c) then (0, Some ErrSyntax)
      else if Uint64.max / 10 + 1 <=? n then (Uint64.max, Some ErrRange)
      else
        let n1 := n * 10 + digit_val c in
        if Uint64.max <? n1 then (Uint64.max, Some ErrRange)
        else parseUintLoop rest n1
  end.

(** [ParseUint(s, 10, 64)]. *)
Definition ParseUint (s : string) : Z * option NumError :=
  match s with
  | EmptyString => (0, Some ErrSyntax)
  | _ => parseUintLoop s 0
  end.

(** [ParseInt(s, 10, 64)]: an optional sign, then [ParseUint]. A syntax
    error returns 0; a value that does not fit returns the nearest
    bound of int64 together with [ErrRange]. *)
Definition ParseInt (s : string) : Z * option NumError :=
  match s with
  | EmptyString => (0, Some ErrSyntax)
  | String c rest =>
      let neg := Ascii.eqb c "-" in
      let s1 := if Ascii.eqb c "+" || neg then rest else s in
      match ParseUint s1 with
      | (_, Some ErrSyntax) => (0, Some ErrSyntax)
      | (un, _) =>
          let cutoff := 2 ^ 63 in
          if negb neg && (cutoff <=? un) then (cutoff - 1, Some ErrRange)
          else if neg && (cutoff <? un) then (- cutoff, Some ErrRange)
          else (if neg then - un else un, None)
      end
  end.

(** [Atoi(s)] is [ParseInt(s, 10, 0)] converted to [int]; [int] has 64
    bits, so the conversion changes nothing. *)
Definition Atoi (s : string) : Z * option NumError := ParseInt s.

End strconv.

(* ===================================================================== *)
(** ** strings *)

Module strings.

Fixpoint HasSuffix (s suffix : string) : bool :=
  if String.eqb s suffix then true
  else match s with
       | EmptyString => false
       | String _ rest => HasSuffix rest suffix
       end.

(** [TrimSuffix(s, suffix)]: [s] without the given trailing suffix, [s]
    itself when it does not end in it. *)
Definition TrimSuffix (s suffix : string) : string :=
  if HasSuffix s suffix
  then String.substring 0 (String.length s - String.length suffix) s
  else s.

End strings.

(* ===================================================================== *)
(** ** regexp *)

Module regexp.

(** The syntax the client's pattern is written in: literal bytes, a
    negated class, concatenation, the greedy [?] and [+], and the
    capture group. *)
Inductive Regexp :=
| Lit (c : ascii)
| NotIn (cs : list ascii)
| Cat (r1 r2 : Regexp)
| Quest (r : Regexp)
| Plus (r : Regexp)
| Group (r : Regexp).

(** The first [n] bytes of [s]. *)
Definition prefix (n : nat) (s : string) : string := String.substring 0 n s.

(** What [s] lost to become its suffix [s']. *)
Definition consumed (s s' : string) : string :=
  prefix (String.length s - String.length s') s.

Definition orElse {A} (x y : option A) : option A :=
  match x with Some _ => x | None => y end.

(** The loop of a greedy [+]: another round of [body] first, going on
    with [k] when that fails. A round that consumes nothing is not
    repeated, so [n] rounds are enough once [n] exceeds the length of
    [s]. *)
Fixpoint plusLoop {A}
    (body : string -> string -> (string -> string -> option A) -> option A)
    (n : nat) (s cap : string) (k : string -> string -> option A)
    {struct n} : option A :=
  match n with
  | O => None
  | S n' =>
      body s cap (fun s' cap' =>
        orElse
          (if (String.length s' <? String.length s)%nat
           then plusLoop body n' s' cap' k else None)
          (k s' cap'))
  end.

(** Backtracking matcher, leftmost-first as Go's regexp package (the
    Perl rule): [matchHere r s cap k] matches [r] at the start of [s],
    trying the alternatives in the order of preference, and hands the
    rest of the input and the text of the capture group to [k]; the
    first alternative [k] accepts wins. *)
Fixpoint matchHere {A} (r : Regexp) (s cap : string)
    (k : string -> string -> option A) {struct r} : option A :=
  match r with
  | Lit c =>
      match s with
      | String c' rest => if Ascii.eqb c c' then k rest cap else None
      | EmptyString => None
      end
  | NotIn cs =>
      match s with
      | String c' rest =>
          if existsb (Ascii.eqb c') cs then None else k rest cap
      | EmptyString => None
      end
  | Cat r1 r2 =>
      matchHere r1 s cap (fun s' cap' => matchHere r2 s' cap' k)
  | Quest r' => orElse (matchHere r' s cap k) (k s cap)
  | Plus r' => plusLoop (matchHere r') (S (String.length s)) s cap k
  | Group r' =>
      matchHere r' s cap (fun s' _ => k s' (consumed s s'))
  end.

(** The leftmost match: the first start position at which the pattern
    matches. The result is the matched text and the capture group. *)
Fixpoint find (r : Regexp) (s : string) : option (string * string) :=
  match matchHere r s "" (fun s' cap => Some (consumed s s', cap)) with
  | Some m => Some m
  | None =>
      match s with
      | EmptyString => None
      | String _ rest => find r rest
      end
  end.

(** [re.FindStringSubmatch(s)] for a pattern with one group: the match
    and the group, or the nil slice. *)
Definition FindStringSubmatch (re : Regexp) (s : string) : list string :=
  match find re s with
  | Some (whole, g) => [whole; g]
  | None => []
  end.

Fixpoint lits (s : string) (r : Regexp) : Regexp :=
  match s with
  | EmptyString => r
  | String c rest => Cat (Lit c) (lits rest r)
  end.

End regexp.

(** The double quote and the line feed. *)
Definition dquote : ascii := "034"%char.
Definition newline : ascii := "010"%char.

(** Writes a Go string literal with ['] standing for the double quote. *)
Fixpoint q (s : string) : string :=
  match s with
  | EmptyString => EmptyString
  | String c rest => String (if Ascii.eqb c "'" then dquote else c) (q rest)
  end.

(** The pattern [Generate] compiles: the text filename= , an optional
    double quote, the group of one or more bytes other than the double
    quote, the semicolon and the line feed, and an optional double quote. *)
Definition filenameRe : regexp.Regexp :=
  regexp.lits "filename="
    (regexp.Cat (regexp.Quest (regexp.Lit dquote))
       (regexp.Cat
          (regexp.Group (regexp.Plus (regexp.NotIn [dquote; ";"%char; newline])))
          (regexp.Quest (regexp.Lit dquote)))).

(* ===================================================================== *)
(** ** net/url *)

Module url.

Definition between (lo hi : nat) (c : ascii) : bool :=
  ((lo <=? nat_of_ascii c) && (nat_of_ascii c <=? hi))%nat.

Definition is_alnum (c : ascii) : bool :=
  between 97 122 c || between 65 90 c || between 48 57 c.

(** [shouldEscape(c, encodePathSegment)]. *)
Definition shouldEscape (c : ascii) : bool :=
  if is_alnum c then false
  else if existsb (Ascii.eqb c) ["-"; "_"; "."; "~"]%char then false
  else if existsb (Ascii.eqb c) ["$"; "&"; "+"; ":"; "="; "@"]%char then false
  else true.

Definition upperhex (n : nat) : ascii :=
  match String.get n "0123456789ABCDEF" with
  | Some c => c
  | None => "0"%char
  end.

(** [PathEscape(s)]: every byte that must be escaped becomes [%XX]. *)
Fixpoint PathEscape (s : string) : string :=
  match s with
  | EmptyString => EmptyString
  | String c rest =>
      if shouldEscape c
      then String "%" (String (upperhex (nat_of_ascii c / 16))
                         (String (upperhex (nat_of_ascii c mod 16))
                            (PathEscape rest)))
      else String c (PathEscape rest)
  end.

End url.

(* ===================================================================== *)
(** ** net/http: headers *)

Module http.

(** [http.Header] is [map[string][]string]. *)
Abbreviation Header := (gmap string (list string)).

Definition is_lower (c : ascii) : bool := url.between 97 122 c.
Definition is_upper (c : ascii) : bool := url.between 65 90 c.

(** The bytes of an HTTP token. *)
Definition validHeaderFieldByte (c : ascii) : bool :=
  url.is_alnum c ||
  existsb (Ascii.eqb c)
    ["!"; "#"; "$"; "%"; "&"; "'"; "*"; "+"; "-"; "."; "^"; "_"; "`"; "|"; "~"]%char.

Fixpoint all_valid (s : string) : bool :=
  match s with
  | EmptyString => true
  | String c rest => validHeaderFieldByte c && all_valid rest
  end.

Fixpoint canon (upper : bool) (s : string) : string :=
  match s with
  | EmptyString => EmptyString
  | String c rest =>
      let c' :=
        if upper && is_lower c then ascii_of_nat (nat_of_ascii c - 32)
        else if negb upper && is_upper c then ascii_of_nat (nat_of_ascii c + 32)
        else c in
      String c' (canon (Ascii.eqb c' "-") rest)
  end.

(** [textproto.CanonicalMIMEHeaderKey]: the first letter and every
    letter after a dash in upper case, the others in lower case; a key
    with a byte that no token has is left as it is. *)
Definition CanonicalMIMEHeaderKey (s : string) : string :=
  if all_valid s then canon true s else s.

(** [h.Get(key)]: the first value under the canonical key, the empty
    string when there is none. *)
Definition Get (h : Header) (key : string) : string :=
  match h !! CanonicalMIMEHeaderKey key with
  | Some (v :: _) => v
  | _ => ""
  end.

(** [h.Set(key, value)] replaces the values under the canonical key. *)
Definition Set_ (h : Header) (key value : string) : Header :=
  <[CanonicalMIMEHeaderKey key := [value]]> h.

Definition StatusOK : Z := 200.

End http.

(* ===================================================================== *)
(** ** unicode/utf8 *)

Module utf8.

Definition byte (z : Z) : ascii := ascii_of_nat (Z.to_nat z).
Definition code (c : ascii) : Z := Z.of_nat (nat_of_ascii c).

(** U+FFFD, the replacement character, encoded. *)
Definition RuneError : string :=
  String (byte 239) (String (byte 191) (String (byte 189) "")).

(** [utf8.AppendRune]: the encoding of a code point; a surrogate or a
    value above U+10FFFF is encoded as the replacement character. *)
Definition EncodeRune (r : Z) : string :=
  if r <? 128 then String (byte r) ""
  else if r <? 2048 then
    String (byte (192 + r / 64)) (String (byte (128 + r mod 64)) "")
  else if (55296 <=? r) && (r <=? 57343) || (1114111 <? r) then RuneError
  else if r <? 65536 then
    String (byte (224 + r / 4096))
      (String (byte (128 + (r / 64) mod 64))
         (String (byte (128 + r mod 64)) ""))
  else
    String (byte (240 + r / 262144))
      (String (byte (128 + (r / 4096) mod 64))
         (String (byte (128 + (r / 64) mod 64))
            (String (byte (128 + r mod 64)) ""))).

Definition within (lo hi : Z) (c : ascii) : bool :=
  (lo <=? code c) && (code c <=? hi).

Definition cont (c : ascii) : bool := within 128 191 c.

(** The second byte a lead byte of a three-byte sequence admits. *)
Definition second3 (c0 c1 : ascii) : bool :=
  if within 224 224 c0 then within 160 191 c1
  else if within 237 237 c0 then within 128 159 c1
  else within 225 239 c0 && cont c1.

(** The second byte a lead byte of a four-byte sequence admits. *)
Definition second4 (c0 c1 : ascii) : bool :=
  if within 240 240 c0 then within 144 191 c1
  else if within 244 244 c0 then within 128 143 c1
  else within 241 243 c0 && cont c1.

(** Decoding rune by rune with [utf8.DecodeRune] and encoding again:
    well-formed sequences are kept, every byte that starts none becomes
    the replacement character. *)
Fixpoint ToValid (s : string) : string :=
  match s with
  | EmptyString => EmptyString
  | String c0 r0 =>
      let bad := RuneError ++ ToValid r0 in
      if within 0 127 c0 then String c0 (ToValid r0)
      else
        match r0 with
        | String c1 r1 =>
            if within 194 223 c0 && cont c1
            then String c0 (String c1 (ToValid r1))
            else
              match r1 with
              | String c2 r2 =>
                  if second3 c0 c1 && cont c2
                  then String c0 (String c1 (String c2 (ToValid r2)))
                  else
                    match r2 with
                    | String c3 r3 =>
                        if second4 c0 c1 && cont c2 && cont c3
                        then String c0 (String c1 (String c2
                               (String c3 (ToValid r3))))
                        else bad
                    | EmptyString => bad
                    end
              | EmptyString => bad
              end
        | EmptyString => bad
        end
  end.

End utf8.

(* ===================================================================== *)
(** ** encoding/json: reading a JSON text *)

Module json.

(** A JSON value, as the text has it and as [Unmarshal] stores it in an
    [interface{}]: nil, bool, number, string, [[]interface{}] and
    [map[string]interface{}]. A number keeps its literal (the conversion
    to float64 is not modelled). An object of a text lists its members as
    written; a map lists its entries, one per key ([toInterface]). *)
Inductive Value :=
| Null
| Bool (b : bool)
| Number (lit : string)
| Str (s : string)
| Array (vs : list Value)
| Object (ms : list (string * Value)).

Inductive token :=
| TLBrace | TRBrace | TLBracket | TRBracket | TColon | TComma
| TStr (s : string)
| TNum (lit : string)
| TTrue | TFalse | TNull.

(** *** Number literals

    An optional minus, then 0 or a digit from 1 to 9 with more digits,
    then an optional fraction (a dot and digits) and an optional
    exponent (e or E, an optional sign, digits). *)

Inductive nstate := NBegin | NNeg | NZero | NInt | NDot | NFrac | NExp | NExpSign | NExpDigits.

Definition nstep (st : nstate) (c : ascii) : option nstate :=
  let d := strconv.is_digit c in
  let e := Ascii.eqb c "e" || Ascii.eqb c "E" in
  match st with
  | NBegin =>
      if Ascii.eqb c "-" then Some NNeg
      else if Ascii.eqb c "0" then Some NZero
      else if d then Some NInt else None
  | NNeg =>
      if Ascii.eqb c "0" then Some NZero else if d then Some NInt else None
  | NZero =>
      if Ascii.eqb c "." then Some NDot else if e then Some NExp else None
  | NInt =>
      if d then Some NInt
      else if Ascii.eqb c "." then Some NDot
      else if e then Some NExp else None
  | NDot => if d then Some NFrac else None
  | NFrac => if d then Some NFrac else if e then Some NExp else None
  | NExp =>
      if Ascii.eqb c "+" || Ascii.eqb c "-" then Some NExpSign
      else if d then Some NExpDigits else None
  | NExpSign => if d then Some NExpDigits else None
  | NExpDigits => if d then Some NExpDigits else None
  end.

Fixpoint nrun (st : nstate) (s : string) : option nstate :=
  match s with
  | EmptyString => Some st
  | String c rest =>
      match nstep st c with
      | Some st' => nrun st' rest
      | None => None
      end
  end.

Definition validNumber (s : string) : bool :=
  match nrun NBegin s with
  | Some NZero | Some NInt | Some NFrac | Some NExpDigits => true
  | _ => false
  end.

(** *** String literals *)

(** What a string literal is made of: a byte of the text, or the UTF-16
    code unit of a [\u] escape. *)
Inductive unit_ := Raw (c : ascii) | U16 (u : Z).

Definition isHigh (u : Z) : bool := (55296 <=? u) && (u <=? 56319).
Definition isLow (u : Z) : bool := (56320 <=? u) && (u <=? 57343).

(** A high surrogate directly followed by an escaped low surrogate is
    one code point; a surrogate on its own is the replacement
    character. *)
Fixpoint decodeUnits (us : list unit_) : string :=
  match us with
  | [] => ""
  | Raw c :: r => String c (decodeUnits r)
  | U16 a :: r =>
      match r with
      | U16 b :: r' =>
          if isHigh a && isLow b
          then utf8.EncodeRune (65536 + (a - 55296) * 1024 + (b - 56320))
                 ++ decodeUnits r'
          else utf8.EncodeRune a ++ decodeUnits r
      | _ => utf8.EncodeRune a ++ decodeUnits r
      end
  end.

(** The Go string of a literal: escapes resolved, ill-formed UTF-8
    replaced. *)
Definition unquote (us : list unit_) : string :=
  utf8.ToValid (decodeUnits us).

Definition hexval (c : ascii) : option Z :=
  if strconv.is_digit c then Some (utf8.code c - 48)
  else if url.between 97 102 c then Some (utf8.code c - 87)
  else if url.between 65 70 c then Some (utf8.code c - 55)
  else None.

Definition escape (c : ascii) : option ascii :=
  if Ascii.eqb c "b" then Some "008"%char
  else if Ascii.eqb c "f" then Some "012"%char
  else if Ascii.eqb c "n" then Some "010"%char
  else if Ascii.eqb c "r" then Some "013"%char
  else if Ascii.eqb c "t" then Some "009"%char
  else if Ascii.eqb c "\" || Ascii.eqb c "/" || Ascii.eqb c dquote then Some c
  else None.

(** *** The lexer: one byte at a time *)

Inductive lstate :=
| LStart
| LStr (acc : list unit_)
| LEsc (acc : list unit_)
| LHex (acc : list unit_) (n : nat) (u : Z)
| LNum (acc : string)
| LWord (acc : string).

Definition isSpace (c : ascii) : bool :=
  existsb (Ascii.eqb c) [" "; "009"; "010"; "013"]%char.

Definition isNumByte (c : ascii) : bool :=
  strconv.is_digit c || existsb (Ascii.eqb c) ["+"; "-"; "."; "e"; "E"]%char.

Definition rev_string (s : string) : string :=
  string_of_list_ascii (rev (list_ascii_of_string s)).

(** The token a finished number or word is, if it is one. *)
Definition flush (st : lstate) (out : list token) : option (list token) :=
  match st with
  | LStart => Some out
  | LNum acc =>
      let lit := rev_string acc in
      if validNumber lit then Some (TNum lit :: out) else None
  | LWord acc =>
      let w := rev_string acc in
      if String.eqb w "true" then Some (TTrue :: out)
      else if String.eqb w "false" then Some (TFalse :: out)
      else if String.eqb w "null" then Some (TNull :: out)
      else None
  | _ => None
  end.

(** A byte met between tokens. *)
Definition start (c : ascii) (out : list token) : option (lstate * list token) :=
  if isSpace c then Some (LStart, out)
  else if Ascii.eqb c "{" then Some (LStart, TLBrace :: out)
  else if Ascii.eqb c "}" then Some (LStart, TRBrace :: out)
  else if Ascii.eqb c "[" then Some (LStart, TLBracket :: out)
  else if Ascii.eqb c "]" then Some (LStart, TRBracket :: out)
  else if Ascii.eqb c ":" then Some (LStart, TColon :: out)
  else if Ascii.eqb c "," then Some (LStart, TComma :: out)
  else if Ascii.eqb c dquote then Some (LStr [], out)
  else if Ascii.eqb c "-" || strconv.is_digit c then Some (LNum (String c ""), out)
  else if http.is_lower c then Some (LWord (String c ""), out)
  else None.

Definition lstep (st : lstate) (c : ascii) (out : list token)
    : option (lstate * list token) :=
  match st with
  | LStart => start c out
  | LStr acc =>
      if Ascii.eqb c dquote then Some (LStart, TStr (unquote (rev acc)) :: out)
      else if Ascii.eqb c "\" then Some (LEsc acc, out)
      else if utf8.code c <? 32 then None
      else Some (LStr (Raw c :: acc), out)
  | LEsc acc =>
      if Ascii.eqb c "u" then Some (LHex acc 0 0, out)
      else match escape c with
           | Some b => Some (LStr (Raw b :: acc), out)
           | None => None
           end
  | LHex acc n u =>
      match hexval c with
      | Some h =>
          if (n =? 3)%nat then Some (LStr (U16 (u * 16 + h) :: acc), out)
          else Some (LHex acc (S n) (u * 16 + h), out)
      | None => None
      end
  | LNum acc =>
      if isNumByte c then Some (LNum (String c acc), out)
      else match flush st out with
           | Some out' => start c out'
           | None => None
           end
  | LWord acc =>
      if http.is_lower c then Some (LWord (String c acc), out)
      else match flush st out with
           | Some out' => start c out'
           | None => None
           end
  end.

Fixpoint lex (st : lstate) (s : string) (out : list token) : option (list token) :=
  match s with
  | EmptyString => option_map (@rev token) (flush st out)
  | String c rest =>
      match lstep st c out with
      | Some (st', out') => lex st' rest out'
      | None => None
      end
  end.

(** *** The parser: a stack of the arrays and objects that are open *)

Inductive frame :=
| FArray (elems : list Value)
| FObject (ms : list (string * Value)) (key : string).

Inductive expect :=
| XValue | XValueOrClose | XKeyOrClose | XKey | XColon | XCommaOrClose
| XEnd (v : Value).

Definition maxNestingDepth : Z := 10000.

(** A value is complete: it is the whole text, the next element of the
    array, or the value of the member whose key was read. *)
Definition push (v : Value) (stack : list frame) : expect * list frame :=
  match stack with
  | [] => (XEnd v, [])
  | FArray es :: st => (XCommaOrClose, FArray (v :: es) :: st)
  | FObject ms k :: st => (XCommaOrClose, FObject ((k, v) :: ms) k :: st)
  end.

Definition open_ (x : expect) (f : frame) (stack : list frame)
    : option (expect * list frame) :=
  if maxNestingDepth <? Z.of_nat (List.length stack) + 1 then None
  else Some (x, f :: stack).

Definition value (t : token) (stack : list frame) : option (expect * list frame) :=
  match t with
  | TStr s => Some (push (Str s) stack)
  | TNum lit => Some (push (Number lit) stack)
  | TTrue => Some (push (Bool true) stack)
  | TFalse => Some (push (Bool false) stack)
  | TNull => Some (push Null stack)
  | TLBrace => open_ XKeyOrClose (FObject [] "") stack
  | TLBracket => open_ XValueOrClose (FArray []) stack
  | _ => None
  end.

Definition close (t : token) (stack : list frame) : option (expect * list frame) :=
  match t, stack with
  | TRBracket, FArray es :: st => Some (push (Array (rev es)) st)
  | TRBrace, FObject ms _ :: st => Some (push (Object (rev ms)) st)
  | _, _ => None
  end.

Definition key (t : token) (stack : list frame) : option (expect * list frame) :=
  match t, stack with
  | TStr k, FObject ms _ :: st => Some (XColon, FObject ms k :: st)
  | _, _ => None
  end.

Definition pstep (x : expect) (stack : list frame) (t : token)
    : option (expect * list frame) :=
  match x with
  | XValue => value t stack
  | XValueOrClose =>
      match t with TRBracket => close t stack | _ => value t stack end
  | XKeyOrClose =>
      match t with TRBrace => close t stack | _ => key t stack end
  | XKey => key t stack
  | XColon => match t with TColon => Some (XValue, stack) | _ => None end
  | XCommaOrClose =>
      match t, stack with
      | TComma, FArray _ :: _ => Some (XValue, stack)
      | TComma, FObject _ _ :: _ => Some (XKey, stack)
      | _, _ => close t stack
      end
  | XEnd _ => None
  end.

Fixpoint prun (x : expect) (stack : list frame) (ts : list token) : option Value :=
  match ts with
  | [] => match x with XEnd v => Some v | _ => None end
  | t :: rest =>
      match pstep x stack t with
      | Some (x', stack') => prun x' stack' rest
      | None => None
      end
  end.

(** The value a JSON text denotes, [None] when the text is not JSON. An
    object keeps its members as written, repeated keys included. *)
Definition parse (data : string) : option Value :=
  match lex LStart data [] with
  | Some ts => prun XValue [] ts
  | None => None
  end.

(** [json.Valid(data)]. *)
Definition Valid (data : string) : bool :=
  match parse data with Some _ => true | None => false end.

Fixpoint setKey (k : string) (v : Value) (ms : list (string * Value))
    : list (string * Value) :=
  match ms with
  | [] => [(k, v)]
  | (k', v') :: r =>
      if String.eqb k k' then (k, v) :: r else (k', v') :: setKey k v r
  end.

(** The value stored in an [interface{}]: objects become maps, in which
    the last member written under a key is the one kept. *)
Fixpoint toInterface (v : Value) : Value :=
  match v with
  | Array vs => Array (map toInterface vs)
  | Object ms =>
      Object (fold_left
                (fun acc m => setKey (fst m) (toInterface (snd m)) acc) ms [])
  | _ => v
  end.

(** [foldName]: the key as the case-insensitive lookup of a struct field
    compares it. ASCII letters go to upper case; the two other letters
    that fold to ASCII, the long s (U+017F) and the Kelvin sign
    (U+212A), go to S and K. *)
Fixpoint foldName (s : string) : string :=
  match s with
  | EmptyString => EmptyString
  | String c0 r0 =>
      let plain :=
        String (if http.is_lower c0
                then ascii_of_nat (nat_of_ascii c0 - 32) else c0)
               (foldName r0) in
      match r0 with
      | String c1 r1 =>
          if (utf8.code c0 =? 197) && (utf8.code c1 =? 191)
          then String "S" (foldName r1)
          else
            match r1 with
            | String c2 r2 =>
                if (utf8.code c0 =? 226) && (utf8.code c1 =? 132)
                   && (utf8.code c2 =? 170)
                then String "K" (foldName r2)
                else plain
            | EmptyString => plain
            end
      | EmptyString => plain
      end
  end.

(** Whether the member key [k] selects the struct field tagged [name]:
    the exact name, or the same name up to case. *)
Definition selects (k name : string) : bool :=
  String.eqb k name || String.eqb (foldName k) (foldName name).

(** *** Numbers in an [interface{}]

    A number stored in an [interface{}] is converted with
    [strconv.ParseFloat(s, 64)], which rounds to the nearest float64 and
    reports an error when the result is infinite, and only then: a value
    too small to be told from zero is zero, without error. *)

(** The least magnitude that rounds to infinity: half a unit in the last
    place above the largest float64. *)
Definition float64Overflow : Z := 2 ^ 1024 - 2 ^ 970.

(** Where the reading of a number literal is: in its integer digits, in
    the digits of its fraction, after the letter of its exponent, in the
    digits of its exponent. *)
Inductive fpart := FInt | FFrac | FExpSign | FExp.

(** The magnitude of a literal as [ParseFloat] reads it: the digits [m]
    of the integer part and the fraction, the number [f] of digits of the
    fraction, and the exponent [e] with its sign. The magnitude is
    [m * 10 ^ (e - f)], [e] negated when [neg] is set. The reading of the
    exponent stops adding digits once it has reached 10000. *)
Fixpoint floatScan (p : fpart) (s : string) (m f : Z) (neg : bool) (e : Z)
    : Z * Z :=
  match s with
  | EmptyString => (m, (if neg then - e else e) - f)
  | String c rest =>
      let d := utf8.code c - 48 in
      match p with
      | FInt =>
          if strconv.is_digit c then floatScan FInt rest (m * 10 + d) f neg e
          else if Ascii.eqb c "." then floatScan FFrac rest m f neg e
          else if Ascii.eqb c "e" || Ascii.eqb c "E"
               then floatScan FExpSign rest m f neg e
          else floatScan FInt rest m f neg e
      | FFrac =>
          if strconv.is_digit c
          then floatScan FFrac rest (m * 10 + d) (f + 1) neg e
          else floatScan FExpSign rest m f neg e
      | FExpSign =>
          if Ascii.eqb c "-" then floatScan FExp rest m f true e
          else if Ascii.eqb c "+" then floatScan FExp rest m f neg e
          else floatScan FExp rest m f neg d
      | FExp =>
          floatScan FExp rest m f neg (if e <? 10000 then e * 10 + d else e)
      end
  end.

(** [ParseFloat(lit, 64)] reports a range error. *)
Definition overflowsFloat64 (lit : string) : bool :=
  let '(m, e) := floatScan FInt lit 0 0 false 0 in
  if 0 <=? e then float64Overflow <=? m * 10 ^ e
  else float64Overflow * 10 ^ (- e) <=? m.

(** Every number of the value, at any depth, converts to a float64. *)
Fixpoint numbersFit (v : Value) : bool :=
  match v with
  | Number lit => negb (overflowsFloat64 lit)
  | Array vs => forallb numbersFit vs
  | Object ms => forallb (fun m => numbersFit (snd m)) ms
  | _ => true
  end.

(** What [Unmarshal] reports. *)
Inductive UnmarshalError := SyntaxError | UnmarshalTypeError.

End json.

(* ===================================================================== *)
(** ** types.go *)

(** [[]byte]. *)
Abbreviation bytes := (list Byte.byte).

(** The conversions [string(b)] and [[]byte(s)]. *)
Definition string_of_bytes (b : bytes) : string := string_of_list_byte b.
Definition bytes_of_string (s : string) : bytes := list_byte_of_string s.

Module Config.
(** [Headers] is a map that may be nil. *)
Record t := {
  APIKey : string;
  BaseURL : string;
  Timeout : Z;
  Headers : option (gmap string string);
  Debug : bool
}.
End Config.

Module GenerateOptions.
Record t := { Filename : string }.
End GenerateOptions.

Module GenerateRequest.
(** [Data] is a map that may be nil, [Options] a pointer that may be
    nil. The values of the template data are written as JSON values. *)
Record t := {
  Data : option (gmap string json.Value);
  Options : option GenerateOptions.t
}.

(** [&GenerateRequest{}]. *)
Definition zero : t := {| Data := None; Options := None |}.
End GenerateRequest.

Module GenerateResponse.
Record t := {
  PDF : bytes;
  Filename : string;
  GenerationTimeMs : Z;
  ContentLength : Z
}.
End GenerateResponse.

Module APIErrorResponse.
Record t := {
  Error : string;
  Message : string;
  Details : json.Value
}.

(** The zero value of [var errorBody APIErrorResponse]. *)
Definition zero : t := {| Error := ""; Message := ""; Details := json.Null |}.
End APIErrorResponse.

(** [json.Unmarshal(data, &errorBody)]. A text that is not JSON is a
    syntax error. The text null leaves the struct as it is. An object
    assigns its members in the order of the text: a member selects the
    field of that name (exactly or up to case), a string is stored in a
    string field and null leaves it, any value is stored in [Details], and
    a member that selects no field is skipped. A value of the wrong kind,
    for a field or for the struct itself, and a number under [Details]
    that does not convert to a float64, at any depth, are reported after
    the rest has been decoded; the first such error is the one kept. *)
Module Unmarshal.
Import APIErrorResponse.

Definition member (acc : t * option json.UnmarshalError)
    (m : string * json.Value) : t * option json.UnmarshalError :=
  let '(dst, err) := acc in
  let '(k, v) := m in
  let mismatch := match err with Some _ => err | None => Some json.UnmarshalTypeError end in
  if json.selects k "error" then
    match v with
    | json.Str s => ({| Error := s; Message := Message dst; Details := Details dst |}, err)
    | json.Null => acc
    | _ => (dst, mismatch)
    end
  else if json.selects k "message" then
    match v with
    | json.Str s => ({| Error := Error dst; Message := s; Details := Details dst |}, err)
    | json.Null => acc
    | _ => (dst, mismatch)
    end
  else if json.selects k "details" then
    ({| Error := Error dst; Message := Message dst; Details := json.toInterface v |},
     if json.numbersFit v then err else mismatch)
  else acc.

Definition into (data : bytes) (dst : t) : t * option json.UnmarshalError :=
  match json.parse (string_of_bytes data) with
  | None => (dst, Some json.SyntaxError)
  | Some json.Null => (dst, None)
  | Some (json.Object ms) => fold_left member ms (dst, None)
  | Some _ => (dst, Some json.UnmarshalTypeError)
  end.
End Unmarshal.

(* ===================================================================== *)
(** ** errors.go *)

Module DocumentStackError.
Record t := { Message : string }.
End DocumentStackError.

Module APIError.
Record t := {
  StatusCode : Z;
  ErrorCode : string;
  Message : string;
  Details : json.Value
}.

Definition IsValidationError (e : t) : bool := StatusCode e =? 400.
Definition IsAuthenticationError (e : t) : bool := StatusCode e =? 401.
Definition IsForbiddenError (e : t) : bool := StatusCode e =? 403.
Definition IsNotFoundError (e : t) : bool := StatusCode e =? 404.
Definition IsRateLimitError (e : t) : bool := StatusCode e =? 429.
Definition IsServerError (e : t) : bool := 500 <=? StatusCode e.
End APIError.

Module RateLimitError.
(** The embedded [*APIError] and the seconds to wait. *)
Record t := {
  APIError_ : APIError.t;
  RetryAfter : Z
}.
End RateLimitError.

Module TimeoutError.
Record t := { Timeout : Z }.
End TimeoutError.

(** The values of the interface [error] that reach the client: the SDK's
    error types, the two errors of package context, and the errors of the
    standard library, which the client only passes on. [NetworkError] has
    its fields [Message] and [Cause] here, the cause being an [error] that
    may be nil. *)
Inductive error :=
| EDocumentStack (e : DocumentStackError.t)
| EAPI (e : APIError.t)
| ERateLimit (e : RateLimitError.t)
| ETimeout (e : TimeoutError.t)
| ENetwork (Message : string) (Cause : option error)
| context_Canceled
| context_DeadlineExceeded
| EForeign (text : string).

(** [NetworkError.Unwrap]. *)
Definition Unwrap (e : error) : option error :=
  match e with
  | ENetwork _ cause => cause
  | _ => None
  end.

Definition NewValidationError (message : string) (details : json.Value) : APIError.t :=
  {| APIError.StatusCode := 400;
     APIError.ErrorCode := "Bad Request";
     APIError.Message := message;
     APIError.Details := details |}.

Definition NewAuthenticationError (message : string) : APIError.t :=
  {| APIError.StatusCode := 401;
     APIError.ErrorCode := "Unauthorized";
     APIError.Message := message;
     APIError.Details := json.Null |}.

Definition NewForbiddenError (message : string) : APIError.t :=
  {| APIError.StatusCode := 403;
     APIError.ErrorCode := "Forbidden";
     APIError.Message := message;
     APIError.Details := json.Null |}.

Definition NewNotFoundError (message : string) : APIError.t :=
  {| APIError.StatusCode := 404;
     APIError.ErrorCode := "Not Found";
     APIError.Message := message;
     APIError.Details := json.Null |}.

(** The [APIError] whose methods a caller reaches through an error: the
    error itself, or the one a [RateLimitError] embeds. *)
Definition apiError (e : error) : option APIError.t :=
  match e with
  | EAPI a => Some a
  | ERateLimit r => Some (RateLimitError.APIError_ r)
  | _ => None
  end.

(* ===================================================================== *)
(** ** The world a call runs in *)

(** [context.Context], as far as [Generate] looks at it: [Err] is what
    [ctx.Err()] answers when it is asked, after a dispatch has failed. *)
Module Context.
Record t := { Err : option error }.
End Context.

Module Request.
(** The [*http.Request] handed to the transport. *)
Record t := {
  Ctx : Context.t;
  Method : string;
  URL : string;
  Body : bytes;
  Header : http.Header
}.
End Request.

Module Response.
(** The [*http.Response]. Reading the body to its end, [io.ReadAll],
    gives the bytes read and the error that stopped the reading, if one
    did. *)
Record t := {
  Status : string;
  StatusCode : Z;
  Header : http.Header;
  Body : bytes * option error
}.
End Response.

Module HTTPClient.
(** [http.Client]: [Timeout] is a [time.Duration], in nanoseconds. *)
Record t := { Timeout : Z }.
End HTTPClient.

(** What the standard library answers to the calls whose result the client
    cannot compute: the encoding of the caller's data, the parsing of the
    URL when the request is built, and the round trip over the network. *)
Module World.
Record t := {
  json_Marshal : GenerateRequest.t -> bytes * option error;
  http_NewRequestWithContext : string -> string -> option error;
  Do : HTTPClient.t -> Request.t -> Response.t + error
}.
End World.

(** The line feed that ends a log line. *)
Definition nl : string := String newline "".

(** An argument of [log.Printf]. *)
Inductive arg := ArgS (s : string) | ArgD (n : Z).

(** What a call does that can be seen from outside. *)
Inductive event :=
| LogPrintf (format : string) (args : list arg)
| Dispatch (req : Request.t)
| BodyClose.

(** A Go call returning a value and an error: the events in the order they
    happen, and the value or the error. *)
Definition io (A : Type) : Type := list event * (A + error).

Definition ret {A} (a : A) : io A := ([], inl a).
Definition fail {A} (e : error) : io A := ([], inr e).
Definition emit (ev : event) : io unit := ([ev], inl tt).

Definition bind {A B} (m : io A) (f : A -> io B) : io B :=
  match m with
  | (t, inl a) => let '(t', r) := f a in ((t ++ t')%list, r)
  | (t, inr e) => (t, inr e)
  end.

(** [defer f()]: the event happens when the function returns. *)
Definition defer {A} (ev : event) (m : io A) : io A :=
  let '(t, r) := m in ((t ++ [ev])%list, r).

Definition when (b : bool) (m : io unit) : io unit :=
  if b then m else ret tt.

Declare Scope io_scope.
Delimit Scope io_scope with io.
Notation "m ;; k" := (bind m (fun _ => k))
  (at level 100, k at level 200, right associativity) : io_scope.
Local Open Scope io_scope.

(* ===================================================================== *)
(** ** The client *)

Definition defaultBaseURL : string := "https://api.documentstack.dev".
Definition defaultTimeout : Z := 30.

(** [time.Second], in nanoseconds. *)
Definition time_Second : Z := 1000000000.

Module Client.
Record t := {
  config : Config.t;
  httpClient : HTTPClient.t
}.
End Client.

(** [New(config)]. The product of the timeout and [time.Second] is an
    int64 product. *)
Definition New (config : Config.t) : Client.t + error :=
  if String.eqb (Config.APIKey config) "" then
    inr (EDocumentStack {| DocumentStackError.Message := "API key is required" |})
  else
    let BaseURL :=
      if String.eqb (Config.BaseURL config) "" then defaultBaseURL
      else Config.BaseURL config in
    let BaseURL := strings.TrimSuffix BaseURL "/" in
    let Timeout :=
      if Config.Timeout config <=? 0 then defaultTimeout
      else Config.Timeout config in
    let Headers :=
      match Config.Headers config with
      | None => Some ∅
      | Some h => Some h
      end in
    let config :=
      {| Config.APIKey := Config.APIKey config;
         Config.BaseURL := BaseURL;
         Config.Timeout := Timeout;
         Config.Headers := Headers;
         Config.Debug := Config.Debug config |} in
    inl {| Client.config := config;
           Client.httpClient :=
             {| HTTPClient.Timeout := Int64.wrap (Timeout * time_Second) |} |}.

(** [c.parseErrorResponse(resp)]. The error of [io.ReadAll] is dropped
    and what was read is decoded; the error of [strconv.Atoi] is dropped
    and its value kept. *)
Definition parseErrorResponse (c : Client.t) (resp : Response.t) : error :=
  let errorBody := APIErrorResponse.zero in
  let body := fst (Response.Body resp) in
  let errorBody :=
    match Unmarshal.into body errorBody with
    | (_, Some _) =>
        {| APIErrorResponse.Error := "Unknown Error";
           APIErrorResponse.Message := Response.Status resp;
           APIErrorResponse.Details := json.Null |}
    | (decoded, None) => decoded
    end in
  let apiErr :=
    {| APIError.StatusCode := Response.StatusCode resp;
       APIError.ErrorCode := APIErrorResponse.Error errorBody;
       APIError.Message := APIErrorResponse.Message errorBody;
       APIError.Details := APIErrorResponse.Details errorBody |} in
  if Response.StatusCode resp =? 429 then
    let retryAfter := fst (strconv.Atoi (http.Get (Response.Header resp) "Retry-After")) in
    ERateLimit {| RateLimitError.APIError_ := apiErr;
                  RateLimitError.RetryAfter := retryAfter |}
  else EAPI apiErr.

(** The headers of the request: the two the client sets, then the
    configured ones, each replacing what is under its canonical key. (Go
    ranges over the map in an order of its choice, which shows only when
    two configured keys have the same canonical form.) *)
Definition requestHeader (config : Config.t) : http.Header :=
  let h := http.Set_ ∅ "Content-Type" "application/json" in
  let h := http.Set_ h "Authorization" ("Bearer " ++ Config.APIKey config) in
  match Config.Headers config with
  | None => h
  | Some extra => map_fold (fun key value h => http.Set_ h key value) h extra
  end.

(** [c.Generate(ctx, templateID, request)]; [request] may be nil. *)
Definition Generate (w : World.t) (c : Client.t) (ctx : Context.t)
    (templateID : string) (request : option GenerateRequest.t)
    : io GenerateResponse.t :=
  let config := Client.config c in
  if String.eqb templateID "" then
    fail (EAPI (NewValidationError "Template ID is required" json.Null))
  else
    let request := default GenerateRequest.zero request in
    let endpoint :=
      Config.BaseURL config ++ "/api/v1/generate/" ++ url.PathEscape templateID in
    match World.json_Marshal w request with
    | (_, Some err) =>
        fail (ENetwork "failed to marshal request body" (Some err))
    | (body, None) =>
        when (Config.Debug config)
          (emit (LogPrintf ("[DocumentStack] Request: POST %s" ++ nl) [ArgS endpoint]) ;;
           emit (LogPrintf ("[DocumentStack] Body: %s" ++ nl) [ArgS (string_of_bytes body)])) ;;
        match World.http_NewRequestWithContext w "POST" endpoint with
        | Some err => fail (ENetwork "failed to create request" (Some err))
        | None =>
            let req :=
              {| Request.Ctx := ctx;
                 Request.Method := "POST";
                 Request.URL := endpoint;
                 Request.Body := body;
                 Request.Header := requestHeader config |} in
            emit (Dispatch req) ;;
            match World.Do w (Client.httpClient c) req with
            | inr err =>
                match Context.Err ctx with
                | Some context_DeadlineExceeded =>
                    fail (ETimeout {| TimeoutError.Timeout := Config.Timeout config |})
                | _ => fail (ENetwork "request failed" (Some err))
                end
            | inl resp =>
                defer BodyClose
                  (if negb (Response.StatusCode resp =? http.StatusOK) then
                     fail (parseErrorResponse c resp)
                   else
                     match Response.Body resp with
                     | (_, Some err) =>
                         fail (ENetwork "failed to read response body" (Some err))
                     | (pdf, None) =>
                         let contentDisposition :=
                           http.Get (Response.Header resp) "Content-Disposition" in
                         let generationTimeMs :=
                           fst (strconv.ParseInt
                                  (http.Get (Response.Header resp) "X-Generation-Time-Ms")) in
                         let contentLength :=
                           fst (strconv.ParseInt
                                  (http.Get (Response.Header resp) "Content-Length")) in
                         let filename := "document.pdf" in
                         let matches :=
                           regexp.FindStringSubmatch filenameRe contentDisposition in
                         let filename :=
                           if (1 <? List.length matches)%nat
                           then nth 1 matches "" else filename in
                         let contentLength :=
                           if contentLength =? 0
                           then Z.of_nat (List.length pdf) else contentLength in
                         when (Config.Debug config)
                           (emit (LogPrintf
                                    ("[DocumentStack] Response: filename=%s, time=%dms, size=%d" ++ nl)
                                    [ArgS filename; ArgD generationTimeMs; ArgD contentLength])) ;;
                         ret {| GenerateResponse.PDF := pdf;
                                GenerateResponse.Filename := filename;
                                GenerateResponse.GenerationTimeMs := generationTimeMs;
                                GenerateResponse.ContentLength := contentLength |}
                     end)
            end
        end
    end.

(* ===================================================================== *)
(** ** Vocabulary of the statements *)

(** The value or the error a call returns, and what it did. *)
Definition outcome {A} (m : io A) : A + error := snd m.
Definition events {A} (m : io A) : list event := fst m.

Definition isDispatch (ev : event) : bool :=
  match ev with Dispatch _ => true | _ => false end.

(** The URL [Generate] posts to. *)
Definition endpoint (c : Client.t) (templateID : string) : string :=
  Config.BaseURL (Client.config c) ++ "/api/v1/generate/" ++ url.PathEscape templateID.

(** The request [Generate] hands to the transport. *)
Definition requestOf (w : World.t) (c : Client.t) (ctx : Context.t)
    (templateID : string) (request : option GenerateRequest.t) : Request.t :=
  {| Request.Ctx := ctx;
     Request.Method := "POST";
     Request.URL := endpoint c templateID;
     Request.Body := fst (World.json_Marshal w (default GenerateRequest.zero request));
     Request.Header := requestHeader (Client.config c) |}.

(** The call gets as far as the dispatch, and [out] is what the dispatch
    gives: the template ID is not empty, the request is encoded and
    built, and the transport answers [out]. *)
Record dispatches (w : World.t) (c : Client.t) (ctx : Context.t)
    (templateID : string) (request : option GenerateRequest.t)
    (out : Response.t + error) : Prop := {
  dispatches_id : templateID <> "";
  dispatches_marshal :
    snd (World.json_Marshal w (default GenerateRequest.zero request)) = None;
  dispatches_request :
    World.http_NewRequestWithContext w "POST" (endpoint c templateID) = None;
  dispatches_do :
    World.Do w (Client.httpClient c) (requestOf w c ctx templateID request) = out
}.

(** The response has no header of that name. *)
Definition absent (h : http.Header) (key : string) : Prop :=
  h !! http.CanonicalMIMEHeaderKey key = None.

(** The six category predicates of [APIError]. *)
Definition categories : list (APIError.t -> bool) :=
  [APIError.IsValidationError; APIError.IsAuthenticationError;
   APIError.IsForbiddenError; APIError.IsNotFoundError;
   APIError.IsRateLimitError; APIError.IsServerError].

(** How many of the category predicates hold of an error. *)
Definition categoriesOf (e : APIError.t) : nat :=
  List.length (List.filter (fun p => p e) categories).

(** The generic API error [parseErrorResponse] builds from the status
    code and the decoded body [b]. *)
Definition apiErrorOf (resp : Response.t) (b : APIErrorResponse.t) : APIError.t :=
  {| APIError.StatusCode := Response.StatusCode resp;
     APIError.ErrorCode := APIErrorResponse.Error b;
     APIError.Message := APIErrorResponse.Message b;
     APIError.Details := APIErrorResponse.Details b |}.

(** The bytes the group of the pattern takes. *)
Definition groupByte (c : ascii) : bool :=
  negb (existsb (Ascii.eqb c) [dquote; ";"%char; newline]).

(** [s] without its longest prefix of bytes that satisfy [ok]. *)
Fixpoint skipRun (ok : ascii -> bool) (s : string) : string :=
  match s with
  | EmptyString => EmptyString
  | String c rest => if ok c then skipRun ok rest else s
  end.

(** [s] begins with a byte that satisfies [ok]. *)
Definition beginsWith (ok : ascii -> bool) (s : string) : bool :=
  match s with
  | EmptyString => false
  | String c _ => ok c
  end.

(** Every byte of [s] satisfies [ok]. *)
Fixpoint allBytes (ok : ascii -> bool) (s : string) : bool :=
  match s with
  | EmptyString => true
  | String c rest => ok c && allBytes ok rest
  end.

(** The pattern has a match in [s]: somewhere in [s] stands the text
    filename= , then perhaps a double quote, then a byte of the group. *)
Definition hasFilename (s : string) : Prop :=
  exists pre o c post,
    s = pre ++ "filename=" ++ o ++ String c post /\
    (o = "" \/ o = String dquote "") /\ groupByte c = true.

(** What [Generate] returns as a function of what the dispatch gives;
    [Generate_dispatches] proves that it is. *)
Definition afterDispatch (c : Client.t) (ctx : Context.t)
    (out : Response.t + error) : GenerateResponse.t + error :=
  match out with
  | inr err =>
      match Context.Err ctx with
      | Some context_DeadlineExceeded =>
          inr (ETimeout {| TimeoutError.Timeout := Config.Timeout (Client.config c) |})
      | _ => inr (ENetwork "request failed" (Some err))
      end
  | inl resp =>
      if negb (Response.StatusCode resp =? http.StatusOK)
      then inr (parseErrorResponse c resp)
      else
        match Response.Body resp with
        | (_, Some err) => inr (ENetwork "failed to read response body" (Some err))
        | (pdf, None) =>
            let contentLength :=
              fst (strconv.ParseInt (http.Get (Response.Header resp) "Content-Length")) in
            let matches :=
              regexp.FindStringSubmatch filenameRe
                (http.Get (Response.Header resp) "Content-Disposition") in
            inl {| GenerateResponse.PDF := pdf;
                   GenerateResponse.Filename :=
                     if (1 <? List.length matches)%nat
                     then nth 1 matches "" else "document.pdf";
                   GenerateResponse.GenerationTimeMs :=
                     fst (strconv.ParseInt
                            (http.Get (Response.Header resp) "X-Generation-Time-Ms"));
                   GenerateResponse.ContentLength :=
                     if contentLength =? 0
                     then Z.of_nat (List.length pdf) else contentLength |}
        end
  end.

(** *** Sample values *)

Module Sample.

Definition config : Config.t :=
  {| Config.APIKey := "key"; Config.BaseURL := "https://x/";
     Config.Timeout := 10; Config.Headers := None; Config.Debug := false |}.

(** The client [New] builds from [config]. *)
Definition client : Client.t :=
  {| Client.config :=
       {| Config.APIKey := "key"; Config.BaseURL := "https://x";
          Config.Timeout := 10; Config.Headers := Some ∅; Config.Debug := false |};
     Client.httpClient := {| HTTPClient.Timeout := 10000000000 |} |}.

Definition background : Context.t := {| Context.Err := None |}.
Definition expired : Context.t := {| Context.Err := Some context_DeadlineExceeded |}.
Definition canceled : Context.t := {| Context.Err := Some context_Canceled |}.

(** A world in which the data is encoded, the request is built and the
    transport gives [out]. *)
Definition world (out : Response.t + error) : World.t :=
  {| World.json_Marshal := fun _ => (bytes_of_string "{}", None);
     World.http_NewRequestWithContext := fun _ _ => None;
     World.Do := fun _ _ => out |}.

Definition response (status : string) (code : Z)
    (header : list (string * string)) (body : string) : Response.t :=
  {| Response.Status := status;
     Response.StatusCode := code;
     Response.Header := list_to_map (map (fun kv => (fst kv, [snd kv])) header);
     Response.Body := (bytes_of_string body, None) |}.

Definition refused : error := EForeign "dial tcp: connection refused".

Definition pdf : string := "%PDF-1.7".

Definition invoice : string := q "attachment; filename='invoice.pdf'".

Definition rateLimited : Response.t :=
  response "429 Too Many Requests" 429 [("Retry-After", "5")]
    (q "{'error':'RateLimited','message':'slow down'}").

Definition notFound : Response.t :=
  response "404 Not Found" 404 [] (q "{'error':'Not Found','message':'no such template'}").

Definition badGateway : Response.t :=
  response "502 Bad Gateway" 502 [] "<html>502 Bad Gateway</html>".

Definition badRequest : Response.t :=
  response "400 Bad Request" 400 []
    (q "{'error':'Bad Request','message':'Template ID is required'}").

End Sample.

(* ===================================================================== *)
(** ** Vocabulary of the further statements *)

(** The value of a text of decimal digits, read from the left, [n] being
    the value of the digits read so far. *)
Fixpoint decimalFrom (s : string) (n : Z) : Z :=
  match s with
  | EmptyString => n
  | String c rest => decimalFrom rest (n * 10 + strconv.digit_val c)
  end.

Definition decimal (s : string) : Z := decimalFrom s 0.

(** A decimal numeral: one digit or more, and nothing else. *)
Definition isNumeral (s : string) : bool :=
  negb (String.eqb s "") && allBytes strconv.is_digit s.

Definition isLog (ev : event) : bool :=
  match ev with LogPrintf _ _ => true | _ => false end.

Definition isBodyClose (ev : event) : bool :=
  match ev with BodyClose => true | _ => false end.

(** What a call does apart from logging. *)
Definition effects {A} (m : io A) : list event :=
  List.filter (fun ev => negb (isLog ev)) (events m).

(** How many events of a call satisfy [p]. *)
Definition count {A} (p : event -> bool) (m : io A) : nat :=
  List.length (List.filter p (events m)).

(** The call gets as far as the dispatch: the template ID is not empty,
    the request is encoded and it is built. *)
Definition reachesDispatch (w : World.t) (c : Client.t)
    (templateID : string) (request : option GenerateRequest.t) : bool :=
  negb (String.eqb templateID "")
  && match snd (World.json_Marshal w (default GenerateRequest.zero request)) with
     | None => true
     | Some _ => false
     end
  && match World.http_NewRequestWithContext w "POST" (endpoint c templateID) with
     | None => true
     | Some _ => false
     end.

(** The client with its debug flag set to [b]. *)
Definition withDebug (b : bool) (c : Client.t) : Client.t :=
  {| Client.config :=
       {| Config.APIKey := Config.APIKey (Client.config c);
          Config.BaseURL := Config.BaseURL (Client.config c);
          Config.Timeout := Config.Timeout (Client.config c);
          Config.Headers := Config.Headers (Client.config c);
          Config.Debug := b |};
     Client.httpClient := Client.httpClient c |}.

(** The errors [Generate] makes itself: an API error, a rate-limit error,
    a timeout error, or a network error with a cause. *)
Definition isSDKError (e : error) : bool :=
  match e with
  | EAPI _ | ERateLimit _ | ETimeout _ => true
  | ENetwork _ (Some _) => true
  | _ => false
  end.

(** The value of an upper-case hexadecimal digit. *)
Definition unhex (c : ascii) : nat :=
  if strconv.is_digit c then nat_of_ascii c - 48 else nat_of_ascii c - 55.

(** Reading an escaped path segment back: a percent sign and two
    hexadecimal digits are one byte. *)
Fixpoint unescape (s : string) : string :=
  match s with
  | EmptyString => EmptyString
  | String c rest =>
      if Ascii.eqb c "%" then
        match rest with
        | String a (String b rest') =>
            String (ascii_of_nat (unhex a * 16 + unhex b)) (unescape rest')
        | _ => String c (unescape rest)
        end
      else String c (unescape rest)
  end.

(** The bytes that divide a URL: they end a path segment or the path. *)
Definition dividesURL (c : ascii) : bool :=
  existsb (Ascii.eqb c) ["/"; "?"; "#"; ";"; ","; " "]%char.

(** A byte that stands for itself in a JSON string: printable ASCII other
    than the double quote and the backslash. *)
Definition plain (c : ascii) : bool :=
  (32 <=? utf8.code c) && (utf8.code c <? 127)
  && negb (Ascii.eqb c dquote) && negb (Ascii.eqb c "\").

(** The JSON text of an error body with the two members error and
    message. *)
Definition quoted (s : string) : string :=
  String dquote (s ++ String dquote "").

Definition errorJSON (code message : string) : string :=
  "{" ++ quoted "error" ++ ":" ++ quoted code ++ ","
  ++ quoted "message" ++ ":" ++ quoted message ++ "}".

(** The bytes of a text as the lexer collects them, last byte first, on
    top of what it has. *)
Fixpoint rawsOnto (s : string) (acc : list json.unit_) : list json.unit_ :=
  match s with
  | EmptyString => acc
  | String c rest => rawsOnto rest (json.Raw c :: acc)
  end.

Fixpoint raws (s : string) : list json.unit_ :=
  match s with
  | EmptyString => []
  | String c rest => json.Raw c :: raws rest
  end.

(** A JSON value a string field accepts: a string, or null. *)
Definition isStrOrNull (v : json.Value) : bool :=
  match v with
  | json.Str _ | json.Null => true
  | _ => false
  end.

(** The error [parseErrorResponse] makes when it cannot decode the body. *)
Definition fallbackError (resp : Response.t) : APIError.t :=
  {| APIError.StatusCode := Response.StatusCode resp;
     APIError.ErrorCode := "Unknown Error";
     APIError.Message := Response.Status resp;
     APIError.Details := json.Null |}.

(** The error with neither code nor message. *)
Definition blankError (resp : Response.t) : APIError.t :=
  {| APIError.StatusCode := Response.StatusCode resp;
     APIError.ErrorCode := "";
     APIError.Message := "";
     APIError.Details := json.Null |}.

(** The status codes that have a category. *)
Definition hasCategory (status : Z) : bool :=
  existsb (Z.eqb status) [400; 401; 403; 404; 429] || (500 <=? status).

(** The first byte of [s] can begin a number for [ParseInt]: a digit or a
    sign. *)
Definition beginsNumber (s : string) : bool :=
  beginsWith (fun c => strconv.is_digit c || Ascii.eqb c "+" || Ascii.eqb c "-") s.

(** The seconds a rate-limit error carries, if the error is one. *)
Definition retryAfter (e : error) : option Z :=
  match e with
  | ERateLimit r => Some (RateLimitError.RetryAfter r)
  | _ => None
  end.

(* ===================================================================== *)
(** ** Calls and what they return *)

Section Calls.

Context {A B : Type}.

Lemma outcome_bind (m : io A) (f : A -> io B) :
  outcome (bind m f) =
  match outcome m with
  | inl a => outcome (f a)
  | inr e => inr e
  end.
Proof.
  destruct m as [t [a | e]]; unfold outcome; simpl; [| reflexivity].
  destruct (f a); reflexivity.
Qed.

Lemma events_bind (m : io A) (f : A -> io B) :
  events (bind m f) =
  match outcome m with
  | inl a => (events m ++ events (f a))%list
  | inr e => events m
  end.
Proof.
  destruct m as [t [a | e]]; unfold events, outcome; simpl; [| reflexivity].
  destruct (f a); reflexivity.
Qed.

Lemma outcome_defer (ev : event) (m : io A) : outcome (defer ev m) = outcome m.
Proof. destruct m; reflexivity. Qed.

End Calls.

Lemma outcome_emit ev : outcome (emit ev) = inl tt.
Proof. reflexivity. Qed.

Lemma outcome_when b (m : io unit) :
  outcome m = inl tt -> outcome (when b m) = inl tt.
Proof. destruct b; auto. Qed.

(** Logging never fails, so it does not change what a call returns. *)
Lemma outcome_logged {A} b (m : io unit) (k : io A) :
  outcome m = inl tt -> outcome (bind (when b m) (fun _ => k)) = outcome k.
Proof.
  intros H. rewrite outcome_bind, (outcome_when b m H). reflexivity.
Qed.

Ltac logged :=
  rewrite outcome_logged
    by (repeat (rewrite ?outcome_bind, ?outcome_emit); reflexivity).

Lemma Generate_dispatches w c ctx templateID request out :
  dispatches w c ctx templateID request out ->
  outcome (Generate w c ctx templateID request) = afterDispatch c ctx out.
Proof.
  intros [Hid Hm Hn Hdo].
  unfold Generate, requestOf, endpoint in *.
  apply String.eqb_neq in Hid. rewrite Hid.
  destruct (World.json_Marshal w (default GenerateRequest.zero request))
    as [body [e |]]; simpl in Hm, Hdo; [discriminate |].
  logged. rewrite Hn, outcome_bind, outcome_emit, Hdo.
  destruct out as [resp | err]; simpl.
  - rewrite outcome_defer.
    destruct (Response.StatusCode resp =? http.StatusOK); simpl; [| reflexivity].
    destruct (Response.Body resp) as [pdf [e |]]; [reflexivity |].
    logged. reflexivity.
  - destruct (Context.Err ctx) as [[] |]; reflexivity.
Qed.

(* ===================================================================== *)
(** ** Strings *)

Lemma string_app_cons (x : ascii) (a b : string) :
  String x a ++ b = String x (a ++ b).
Proof. reflexivity. Qed.

Lemma string_length_app (a b : string) :
  String.length (a ++ b) = (String.length a + String.length b)%nat.
Proof.
  induction a as [| c a IH]; [reflexivity |].
  rewrite string_app_cons. simpl. now rewrite IH.
Qed.

Lemma string_app_assoc (a b c : string) : (a ++ b) ++ c = a ++ (b ++ c).
Proof.
  induction a as [| x a IH]; [reflexivity |].
  rewrite !string_app_cons. now rewrite IH.
Qed.

Lemma substring_app (a b : string) :
  String.substring 0 (String.length a) (a ++ b) = a.
Proof.
  induction a as [| c a IH].
  - destruct b; reflexivity.
  - rewrite string_app_cons. simpl. now rewrite IH.
Qed.

(** Brings the appends of a goal into one shape. *)
Ltac app_norm :=
  repeat (rewrite string_app_assoc || rewrite string_app_cons).

Lemma consumed_app (a b : string) : regexp.consumed (a ++ b) b = a.
Proof.
  unfold regexp.consumed, regexp.prefix. rewrite string_length_app.
  replace (String.length a + String.length b - String.length b)%nat
    with (String.length a) by lia.
  apply substring_app.
Qed.

(* ===================================================================== *)
(** ** strconv: what a failed parse returns *)

Lemma ParseInt_syntax s v :
  strconv.ParseInt s = (v, Some strconv.ErrSyntax) -> v = 0.
Proof.
  unfold strconv.ParseInt. destruct s as [| c rest]; [now inversion 1 |].
  destruct (strconv.ParseUint _) as [un [[] |]];
    repeat match goal with
           | |- context [if ?b then _ else _] => destruct b
           end; now inversion 1.
Qed.

Lemma ParseInt_range s v :
  strconv.ParseInt s = (v, Some strconv.ErrRange) ->
  v = Int64.max \/ v = Int64.min.
Proof.
  unfold strconv.ParseInt. destruct s as [| c rest]; [now inversion 1 |].
  destruct (strconv.ParseUint _) as [un [[] |]]; try now inversion 1.
  all: destruct (negb _ && _); [inversion 1; now left |].
  all: destruct (_ && _); [inversion 1; now right | now inversion 1].
Qed.

(** A parse that reports an error returns zero exactly when the error is
    one of syntax. *)
Lemma ParseInt_error_zero s v e :
  strconv.ParseInt s = (v, Some e) -> (v = 0 <-> e = strconv.ErrSyntax).
Proof.
  intros H. destruct e.
  - apply ParseInt_syntax in H. tauto.
  - apply ParseInt_range in H. unfold Int64.max, Int64.min in H.
    split; [lia | discriminate].
Qed.

Lemma Get_absent (h : http.Header) key : absent h key -> http.Get h key = "".
Proof. unfold absent, http.Get. now intros ->. Qed.

(* ===================================================================== *)
(** ** regexp: what a match of the pattern is made of *)

Lemma skipRun_split ok s :
  exists g, s = g ++ skipRun ok s /\ allBytes ok g = true.
Proof.
  induction s as [| c s IH]; simpl.
  - now exists "".
  - destruct (ok c) eqn:Hc.
    + destruct IH as (g & Hs & Hg). exists (String c g).
      rewrite string_app_cons, <- Hs. simpl. now rewrite Hc, Hg.
    + now exists "".
Qed.

Lemma skipRun_stop ok s : beginsWith ok (skipRun ok s) = false.
Proof.
  induction s as [| c s IH]; simpl; [reflexivity |].
  destruct (ok c) eqn:Hc; [exact IH | simpl; exact Hc].
Qed.

Section Matching.

Context {A : Type}.
Implicit Types (k : string -> string -> option A) (s cap : string).

(** The equations of the matcher. *)
Lemma matchHere_Cat r1 r2 s cap k :
  regexp.matchHere (regexp.Cat r1 r2) s cap k =
  regexp.matchHere r1 s cap (fun s' cap' => regexp.matchHere r2 s' cap' k).
Proof. reflexivity. Qed.

Lemma matchHere_Group r s cap k :
  regexp.matchHere (regexp.Group r) s cap k =
  regexp.matchHere r s cap (fun s' _ => k s' (regexp.consumed s s')).
Proof. reflexivity. Qed.

Lemma matchHere_Plus r s cap k :
  regexp.matchHere (regexp.Plus r) s cap k =
  regexp.plusLoop (regexp.matchHere r) (S (String.length s)) s cap k.
Proof. reflexivity. Qed.

Lemma matchHere_NotIn_eq cs s cap k :
  regexp.matchHere (regexp.NotIn cs) s cap k =
  match s with
  | String c rest =>
      if negb (existsb (Ascii.eqb c) cs) then k rest cap else None
  | EmptyString => None
  end.
Proof. destruct s as [| c rest]; simpl; [| destruct (existsb _ _)]; reflexivity. Qed.

Lemma plusLoop_S body n s cap k :
  regexp.plusLoop body (S n) s cap k =
  body s cap (fun s' cap' =>
    regexp.orElse
      (if (String.length s' <? String.length s)%nat
       then regexp.plusLoop body n s' cap' k else None)
      (k s' cap')).
Proof. reflexivity. Qed.

Lemma matchHere_lits_app p r s cap k :
  regexp.matchHere (regexp.lits p r) (p ++ s) cap k = regexp.matchHere r s cap k.
Proof.
  induction p as [| c p IH]; [reflexivity |].
  rewrite string_app_cons. simpl. now rewrite Ascii.eqb_refl.
Qed.

Lemma matchHere_lits p r s cap k x :
  regexp.matchHere (regexp.lits p r) s cap k = Some x ->
  exists s', s = p ++ s' /\ regexp.matchHere r s' cap k = Some x.
Proof.
  revert s. induction p as [| c p IH]; intros s H; simpl in H.
  - now exists s.
  - destruct s as [| c' s]; [discriminate |].
    destruct (Ascii.eqb_spec c c') as [<- |]; [| discriminate].
    destruct (IH _ H) as (s' & -> & H'). now exists s'.
Qed.

(** An optional byte before a continuation that never fails: the byte is
    taken when it is there. *)
Lemma matchHere_quest c s cap k :
  (forall s' cap', k s' cap' <> None) ->
  regexp.matchHere (regexp.Quest (regexp.Lit c)) s cap k =
  match s with
  | String c' s' => if Ascii.eqb c c' then k s' cap else k s cap
  | EmptyString => k s cap
  end.
Proof.
  intros Hk. simpl. unfold regexp.orElse.
  destruct s as [| c' s']; [reflexivity |].
  destruct (Ascii.eqb c c'); [| reflexivity].
  destruct (k s' cap) eqn:E; [reflexivity | now apply Hk in E].
Qed.

(** The loop over a body that takes one byte of a class at a time, before
    a continuation that never fails, takes the longest run of such bytes;
    [n] rounds are enough when [n] exceeds the length of the input. *)
Lemma plusLoop_greedy (ok : ascii -> bool)
    (body : string -> string -> (string -> string -> option A) -> option A) k :
  (forall s cap k', body s cap k' =
     match s with
     | String c rest => if ok c then k' rest cap else None
     | EmptyString => None
     end) ->
  (forall s' cap', k s' cap' <> None) ->
  forall n s cap,
    (String.length s < n)%nat ->
    regexp.plusLoop body n s cap k =
    match s with
    | String c rest => if ok c then k (skipRun ok rest) cap else None
    | EmptyString => None
    end.
Proof.
  intros Hbody Hk n. induction n as [| n IH]; intros s cap Hn; [lia |].
  rewrite plusLoop_S, Hbody. destruct s as [| c rest]; [reflexivity |].
  destruct (ok c); [| reflexivity].
  replace (String.length rest <? String.length (String c rest))%nat with true
    by (symmetry; apply Nat.ltb_lt; simpl; lia).
  rewrite IH by (simpl in Hn; lia). unfold regexp.orElse.
  destruct rest as [| c' rest']; [reflexivity |]. simpl.
  destruct (ok c'); [| reflexivity].
  destruct (k (skipRun ok rest') cap) eqn:E; [reflexivity | now apply Hk in E].
Qed.

(** The group of the pattern, before a continuation that never fails,
    takes the longest run of bytes outside the class, which must not be
    empty. *)
Lemma matchHere_group_plus cs s cap k :
  (forall s' cap', k s' cap' <> None) ->
  let ok := fun c => negb (existsb (Ascii.eqb c) cs) in
  regexp.matchHere (regexp.Group (regexp.Plus (regexp.NotIn cs))) s cap k =
  match s with
  | String c rest =>
      if ok c
      then k (skipRun ok rest) (regexp.consumed s (skipRun ok rest))
      else None
  | EmptyString => None
  end.
Proof.
  intros Hk ok. rewrite matchHere_Group, matchHere_Plus.
  rewrite (plusLoop_greedy ok) with (n := S (String.length s));
    [reflexivity | apply matchHere_NotIn_eq | | lia].
  intros s' cap'. apply Hk.
Qed.

End Matching.

Lemma orElse_left {A} (x y : option A) : x <> None -> regexp.orElse x y <> None.
Proof. destruct x; [discriminate | now intros []]. Qed.

Lemma orElse_right {A} (x y : option A) : y <> None -> regexp.orElse x y <> None.
Proof. destruct x; [discriminate | auto]. Qed.

(** A search tries the start of the text, then the rest of it. *)
Lemma find_eq r s :
  regexp.find r s =
  regexp.orElse
    (regexp.matchHere r s "" (fun s' cap => Some (regexp.consumed s s', cap)))
    (match s with
     | EmptyString => None
     | String _ rest => regexp.find r rest
     end).
Proof. destruct s; simpl; destruct (regexp.matchHere _ _ _ _); reflexivity. Qed.

Lemma find_somewhere r s m :
  regexp.find r s = Some m ->
  exists pre s0,
    s = pre ++ s0 /\
    regexp.matchHere r s0 "" (fun s' cap => Some (regexp.consumed s0 s', cap)) = Some m.
Proof.
  induction s as [| c s IH]; rewrite find_eq; unfold regexp.orElse.
  - destruct (regexp.matchHere r "" "" _) eqn:E; [| discriminate].
    intros [= <-]. now exists "", "".
  - destruct (regexp.matchHere r (String c s) "" _) eqn:E.
    + intros [= <-]. now exists "", (String c s).
    + intros H. destruct (IH H) as (pre & s0 & -> & Hm).
      now exists (String c pre), s0.
Qed.

Lemma find_nowhere r s :
  regexp.find r s = None ->
  forall pre s0,
    s = pre ++ s0 ->
    regexp.matchHere r s0 "" (fun s' cap => Some (regexp.consumed s0 s', cap)) = None.
Proof.
  induction s as [| c s IH]; rewrite find_eq; unfold regexp.orElse.
  - destruct (regexp.matchHere r "" "" _) eqn:E; [discriminate |].
    intros _ pre s0 Hs. destruct pre; [| discriminate].
    change ("" ++ s0) with s0 in Hs. now subst s0.
  - destruct (regexp.matchHere r (String c s) "" _) eqn:E; [discriminate |].
    intros H pre s0 Hs. destruct pre as [| c' pre].
    + change ("" ++ s0) with s0 in Hs. now subst s0.
    + rewrite string_app_cons in Hs. injection Hs as _ Hs. now apply (IH H pre).
Qed.

(** The last part of the pattern, the optional closing quote, never
    fails. *)
Lemma closing_total s0 s cap :
  regexp.matchHere (regexp.Quest (regexp.Lit dquote)) s cap
    (fun s' cap' => Some (regexp.consumed s0 s', cap')) <> None.
Proof.
  rewrite matchHere_quest by discriminate.
  destruct s as [| c s']; [discriminate |].
  destruct (Ascii.eqb dquote c); discriminate.
Qed.

(** The pattern at the start of a text that begins with filename= : the
    opening quote is tried first, and given up when no byte of the group
    follows it. *)
Lemma matchHere_filenameRe s1 :
  let s0 := "filename=" ++ s1 in
  let group s cap :=
    regexp.matchHere
      (regexp.Group (regexp.Plus (regexp.NotIn [dquote; ";"%char; newline]))) s cap
      (fun s' cap' =>
         regexp.matchHere (regexp.Quest (regexp.Lit dquote)) s' cap'
           (fun s'' cap'' => Some (regexp.consumed s0 s'', cap''))) in
  regexp.matchHere filenameRe s0 "" (fun s' cap => Some (regexp.consumed s0 s', cap)) =
  regexp.orElse
    (match s1 with
     | String c s2 => if Ascii.eqb dquote c then group s2 "" else None
     | EmptyString => None
     end)
    (group s1 "").
Proof.
  intros s0 group. unfold filenameRe. subst s0.
  rewrite matchHere_lits_app. reflexivity.
Qed.

(** The group at the start of [s], with what follows it in the pattern. *)
Lemma group_eq s0 s cap :
  regexp.matchHere
    (regexp.Group (regexp.Plus (regexp.NotIn [dquote; ";"%char; newline]))) s cap
    (fun s' cap' =>
       regexp.matchHere (regexp.Quest (regexp.Lit dquote)) s' cap'
         (fun s'' cap'' => Some (regexp.consumed s0 s'', cap''))) =
  match s with
  | String c rest =>
      if groupByte c
      then
        let s3 := skipRun groupByte rest in
        let g := regexp.consumed s s3 in
        match s3 with
        | String c' s4 =>
            if Ascii.eqb dquote c' then Some (regexp.consumed s0 s4, g)
            else Some (regexp.consumed s0 s3, g)
        | EmptyString => Some (regexp.consumed s0 s3, g)
        end
      else None
  | EmptyString => None
  end.
Proof.
  rewrite matchHere_group_plus by (intros; apply closing_total).
  destruct s as [| c rest]; [reflexivity |].
  change (negb (existsb (Ascii.eqb c) [dquote; ";"%char; newline]))
    with (groupByte c).
  destruct (groupByte c); [| reflexivity].
  rewrite matchHere_quest by discriminate. reflexivity.
Qed.

(** A match of the pattern: the text filename= , an optional double quote,
    the group, which is not empty, has no double quote, semicolon or line
    feed and is as long as it can be, and the double quote after it when
    there is one. *)
Lemma find_filenameRe s whole g :
  regexp.find filenameRe s = Some (whole, g) ->
  g <> "" /\ allBytes groupByte g = true /\
  exists pre o o' post,
    s = pre ++ whole ++ post /\
    whole = "filename=" ++ o ++ g ++ o' /\
    (o = "" \/ o = String dquote "") /\
    (o' = "" \/ o' = String dquote "") /\
    beginsWith groupByte (o' ++ post) = false /\
    (o' = "" -> beginsWith (Ascii.eqb dquote) post = false).
Proof.
  intros H. apply find_somewhere in H. destruct H as (pre & s0 & -> & H).
  pose proof H as H0. unfold filenameRe in H0. apply matchHere_lits in H0.
  destruct H0 as (s1 & -> & _). rewrite matchHere_filenameRe in H.
  assert (Hg : exists o s2,
             s1 = o ++ s2 /\ (o = "" \/ o = String dquote "") /\
             regexp.matchHere
               (regexp.Group (regexp.Plus (regexp.NotIn [dquote; ";"%char; newline])))
               s2 ""
               (fun s' cap' =>
                  regexp.matchHere (regexp.Quest (regexp.Lit dquote)) s' cap'
                    (fun s'' cap'' =>
                       Some (regexp.consumed ("filename=" ++ s1) s'', cap'')))
             = Some (whole, g)).
  { unfold regexp.orElse in H.
    destruct s1 as [| c s2]; [exists "", ""; auto |].
    destruct (Ascii.eqb_spec dquote c) as [<- |]; [| exists "", (String c s2); auto].
    destruct (regexp.matchHere _ s2 "" _) eqn:E.
    - exists (String dquote ""), s2. rewrite <- H. auto.
    - exists "", (String dquote s2). auto. }
  clear H. destruct Hg as (o & s2 & -> & Ho & H).
  rewrite group_eq in H. destruct s2 as [| c rest]; [discriminate |].
  destruct (groupByte c) eqn:Hc; [| discriminate].
  destruct (skipRun_split groupByte rest) as (g' & Hrest & Hg').
  pose proof (skipRun_stop groupByte rest) as Hstop.
  set (s3 := skipRun groupByte rest) in *. cbv zeta in H.
  assert (Hcons : regexp.consumed (String c rest) s3 = String c g').
  { rewrite Hrest at 1. rewrite <- string_app_cons. apply consumed_app. }
  rewrite Hcons in H.
  assert (Hwhole : forall o' post,
            s3 = o' ++ post ->
            regexp.consumed ("filename=" ++ o ++ String c rest) post
            = "filename=" ++ o ++ String c g' ++ o').
  { intros o' post Hs3.
    replace ("filename=" ++ o ++ String c rest)
      with (("filename=" ++ o ++ String c g' ++ o') ++ post).
    - apply consumed_app.
    - rewrite Hrest, Hs3. now app_norm. }
  assert (Hfinal : exists o' post,
            s3 = o' ++ post /\ (o' = "" \/ o' = String dquote "") /\
            (o' = "" -> beginsWith (Ascii.eqb dquote) post = false) /\
            whole = regexp.consumed ("filename=" ++ o ++ String c rest) post /\
            g = String c g').
  { destruct s3 as [| c' s4] eqn:E3.
    - injection H as <- <-. exists "", "". auto.
    - destruct (Ascii.eqb_spec dquote c') as [<- | Hne].
      + injection H as <- <-. exists (String dquote ""), s4. repeat split; auto.
        discriminate.
      + injection H as <- <-. exists "", (String c' s4). repeat split; auto.
        intros _. change (Ascii.eqb dquote c' = false). now apply Ascii.eqb_neq. }
  destruct Hfinal as (o' & post & Hs3 & Ho' & Hq & -> & ->).
  rewrite (Hwhole o' post Hs3).
  split; [discriminate |]. split; [simpl; now rewrite Hc, Hg' |].
  exists pre, o, o', post. repeat split; auto.
  - rewrite Hrest, Hs3. now app_norm.
  - now rewrite <- Hs3.
Qed.

(** The pattern matches at the start of a text that begins with
    filename= , perhaps a double quote, and a byte of the group. *)
Lemma matchHere_filenameRe_complete o c post :
  o = "" \/ o = String dquote "" ->
  groupByte c = true ->
  let s0 := "filename=" ++ o ++ String c post in
  regexp.matchHere filenameRe s0 "" (fun s' cap => Some (regexp.consumed s0 s', cap))
  <> None.
Proof.
  intros Ho Hc s0. subst s0. rewrite matchHere_filenameRe.
  assert (Hgroup : forall s0,
            regexp.matchHere
              (regexp.Group (regexp.Plus (regexp.NotIn [dquote; ";"%char; newline])))
              (String c post) ""
              (fun s' cap' =>
                 regexp.matchHere (regexp.Quest (regexp.Lit dquote)) s' cap'
                   (fun s'' cap'' => Some (regexp.consumed s0 s'', cap'')))
            <> None).
  { intros s0. rewrite group_eq, Hc. cbv zeta.
    destruct (skipRun groupByte post) as [| c' s4]; [discriminate |].
    destruct (Ascii.eqb dquote c'); discriminate. }
  destruct Ho as [-> | ->].
  - apply orElse_right. apply Hgroup.
  - apply orElse_left.
    change (String dquote "" ++ String c post) with (String dquote (String c post)).
    cbv beta iota. rewrite Ascii.eqb_refl. apply Hgroup.
Qed.

(** The header does not match the pattern exactly when the text the
    pattern describes stands nowhere in it. *)
Lemma find_filenameRe_None s :
  regexp.find filenameRe s = None <-> ~ hasFilename s.
Proof.
  split.
  - intros H (pre & o & c & post & Hs & Ho & Hc).
    apply (matchHere_filenameRe_complete o c post Ho Hc).
    now apply (find_nowhere _ _ H pre).
  - intros Hno. destruct (regexp.find filenameRe s) as [[whole g] |] eqn:E;
      [| reflexivity].
    exfalso. apply Hno. apply find_filenameRe in E.
    destruct E as (Hne & Hg & pre & o & o' & post & Hs & Hw & Ho & _).
    destruct g as [| c g']; [now destruct Hne |].
    simpl in Hg. apply andb_true_iff in Hg. destruct Hg as [Hc _].
    exists pre, o, c, (g' ++ o' ++ post). repeat split; auto.
    rewrite Hs, Hw. now app_norm.
Qed.

(* ===================================================================== *)
(** ** The dispatch is an event of the call *)

Lemma events_logged {A} b (m : io unit) (k : io A) :
  outcome m = inl tt ->
  events (bind (when b m) (fun _ => k)) = (events (when b m) ++ events k)%list.
Proof.
  intros H. rewrite events_bind, (outcome_when b m H). reflexivity.
Qed.

(** A call that gets as far as the dispatch has the dispatch of its
    request among its events. *)
Lemma Generate_dispatch_event w c ctx templateID request out :
  dispatches w c ctx templateID request out ->
  In (Dispatch (requestOf w c ctx templateID request))
     (events (Generate w c ctx templateID request)).
Proof.
  intros [Hid Hm Hn Hdo].
  unfold Generate, requestOf, endpoint in *.
  apply String.eqb_neq in Hid. rewrite Hid.
  destruct (World.json_Marshal w (default GenerateRequest.zero request))
    as [body [e |]]; simpl in Hm, Hdo; [discriminate |].
  rewrite events_logged
    by (repeat (rewrite ?outcome_bind, ?outcome_emit); reflexivity).
  rewrite Hn. apply in_or_app. right.
  rewrite events_bind, outcome_emit. apply in_or_app. left. now left.
Qed.

(** In the sample world every call with a template ID is dispatched. *)
Lemma Sample_dispatches out c ctx templateID request :
  String.eqb templateID "" = false ->
  dispatches (Sample.world out) c ctx templateID request out.
Proof.
  intros H. split; try reflexivity. now apply String.eqb_neq.
Defined.

(* ===================================================================== *)
(** ** The result of a successful call *)

(** C1. For a 200 response whose Content-Disposition header is
    attachment; filename= followed by invoice.pdf in double quotes, with
    body bytes B, Generate returns a result whose Filename is invoice.pdf,
    whose PDF is B and whose ContentLength is the length of B, whenever
    the Content-Length header is absent or is the string 0. *)
Theorem C1_invoice_response w c ctx templateID request resp (B : bytes) :
  dispatches w c ctx templateID request (inl resp) ->
  Response.StatusCode resp = 200 ->
  http.Get (Response.Header resp) "Content-Disposition"
    = q "attachment; filename='invoice.pdf'" ->
  Response.Body resp = (B, None) ->
  absent (Response.Header resp) "Content-Length"
    \/ http.Get (Response.Header resp) "Content-Length" = "0" ->
  exists r,
    outcome (Generate w c ctx templateID request) = inl r /\
    GenerateResponse.Filename r = "invoice.pdf" /\
    GenerateResponse.PDF r = B /\
    GenerateResponse.ContentLength r = Z.of_nat (List.length B).
Proof.
  intros Hd Hs Hcd Hb Hcl.
  rewrite (Generate_dispatches _ _ _ _ _ _ Hd).
  unfold afterDispatch. rewrite Hs, Hb, Hcd. simpl negb. cbv iota.
  eexists. split; [reflexivity |]. simpl GenerateResponse.Filename.
  simpl GenerateResponse.PDF. simpl GenerateResponse.ContentLength.
  split; [reflexivity |]. split; [reflexivity |].
  destruct Hcl as [Hcl | Hcl].
  - rewrite (Get_absent _ _ Hcl). reflexivity.
  - rewrite Hcl. reflexivity.
Qed.

Lemma C1_invoice_response_witness :
  exists r,
    outcome (Generate
               (Sample.world
                  (inl (Sample.response "200 OK" 200
                          [("Content-Disposition", Sample.invoice);
                           ("Content-Length", "0")] Sample.pdf)))
               Sample.client Sample.background "tpl-1" None) = inl r /\
    GenerateResponse.Filename r = "invoice.pdf" /\
    GenerateResponse.PDF r = bytes_of_string Sample.pdf /\
    GenerateResponse.ContentLength r = 8.
Proof.
  apply (C1_invoice_response _ _ _ _ _ _ (bytes_of_string Sample.pdf)
           (Sample_dispatches _ Sample.client Sample.background "tpl-1" None eq_refl)).
  - reflexivity.
  - vm_compute. reflexivity.
  - reflexivity.
  - right. vm_compute. reflexivity.
Defined.

(** C2. For a 200 response, the Filename of the result is the first
    capture group of the pattern applied to the Content-Disposition
    header, and it is document.pdf whenever that header is absent or does
    not match the pattern. The header matches exactly when the text the
    pattern describes stands in it, and the group is then not empty and
    free of double quotes, semicolons and line feeds. *)
Theorem C2_filename w c ctx templateID request resp (pdf : bytes) :
  dispatches w c ctx templateID request (inl resp) ->
  Response.StatusCode resp = 200 ->
  Response.Body resp = (pdf, None) ->
  let header := http.Get (Response.Header resp) "Content-Disposition" in
  exists r,
    outcome (Generate w c ctx templateID request) = inl r /\
    GenerateResponse.Filename r =
      match regexp.FindStringSubmatch filenameRe header with
      | [_; group] => group
      | _ => "document.pdf"
      end /\
    (absent (Response.Header resp) "Content-Disposition" ->
     GenerateResponse.Filename r = "document.pdf") /\
    (regexp.FindStringSubmatch filenameRe header = [] ->
     GenerateResponse.Filename r = "document.pdf") /\
    (~ hasFilename header -> GenerateResponse.Filename r = "document.pdf") /\
    (hasFilename header ->
     GenerateResponse.Filename r <> "" /\
     allBytes groupByte (GenerateResponse.Filename r) = true).
Proof.
  intros Hd Hs Hb header.
  rewrite (Generate_dispatches _ _ _ _ _ _ Hd).
  unfold afterDispatch. rewrite Hs, Hb. simpl negb. cbv iota.
  eexists. split; [reflexivity |]. simpl GenerateResponse.Filename.
  fold header. unfold regexp.FindStringSubmatch.
  split; [| split; [| split; [| split]]].
  - destruct (regexp.find filenameRe header) as [[whole g] |]; reflexivity.
  - intros Ha. subst header. rewrite (Get_absent _ _ Ha). reflexivity.
  - destruct (regexp.find filenameRe header) as [[whole g] |];
      [discriminate | reflexivity].
  - intros Hno. apply find_filenameRe_None in Hno. now rewrite Hno.
  - intros Hyes.
    destruct (regexp.find filenameRe header) as [[whole g] |] eqn:E.
    + apply find_filenameRe in E. destruct E as (Hne & Hg & _).
      split; [exact Hne | exact Hg].
    + apply find_filenameRe_None in E. now destruct E.
Qed.

Lemma C2_filename_witness :
  exists r,
    outcome (Generate
               (Sample.world
                  (inl (Sample.response "200 OK" 200
                          [("Content-Disposition", "attachment; filename=report.pdf; size=3")]
                          Sample.pdf)))
               Sample.client Sample.background "tpl-1" None) = inl r /\
    GenerateResponse.Filename r = "report.pdf".
Proof.
  destruct (C2_filename _ _ _ _ _ _ (bytes_of_string Sample.pdf)
              (Sample_dispatches
                 (inl (Sample.response "200 OK" 200
                         [("Content-Disposition", "attachment; filename=report.pdf; size=3")]
                         Sample.pdf))
                 Sample.client Sample.background "tpl-1" None eq_refl)
              eq_refl eq_refl) as (r & Hr & Hf & _).
  exists r. split; [exact Hr |]. rewrite Hf. vm_compute. reflexivity.
Defined.

(** C3, as the code has it. For a 200 response, Generate takes the length
    of the payload for ContentLength exactly when ParseInt returns zero
    for the Content-Length header. That is so for a numeral of value
    zero, and also when the header is absent or is no decimal numeral: the
    error of the parse is dropped, and the value that comes with a syntax
    error is zero. Only a numeral out of the range of int64 fails to parse
    without the fallback: the value is then the nearest bound of int64. *)
Theorem C3_content_length_fallback w c ctx templateID request resp (pdf : bytes) :
  dispatches w c ctx templateID request (inl resp) ->
  Response.StatusCode resp = 200 ->
  Response.Body resp = (pdf, None) ->
  exists r,
    outcome (Generate w c ctx templateID request) = inl r /\
    let parsed := strconv.ParseInt (http.Get (Response.Header resp) "Content-Length") in
    GenerateResponse.ContentLength r =
      (if fst parsed =? 0 then Z.of_nat (List.length pdf) else fst parsed) /\
    (snd parsed = Some strconv.ErrSyntax ->
     GenerateResponse.ContentLength r = Z.of_nat (List.length pdf)) /\
    (absent (Response.Header resp) "Content-Length" ->
     GenerateResponse.ContentLength r = Z.of_nat (List.length pdf)) /\
    (snd parsed = Some strconv.ErrRange ->
     GenerateResponse.ContentLength r = fst parsed /\
     (fst parsed = Int64.max \/ fst parsed = Int64.min)).
Proof.
  intros Hd Hs Hb.
  rewrite (Generate_dispatches _ _ _ _ _ _ Hd).
  unfold afterDispatch. rewrite Hs, Hb. simpl negb. cbv iota.
  eexists. split; [reflexivity |]. simpl GenerateResponse.ContentLength.
  split; [reflexivity |]. split; [| split].
  - destruct (strconv.ParseInt _) as [v e] eqn:E. simpl. intros ->.
    apply ParseInt_syntax in E. now subst v.
  - intros Ha. rewrite (Get_absent _ _ Ha). reflexivity.
  - destruct (strconv.ParseInt _) as [v e] eqn:E. simpl. intros ->.
    apply ParseInt_range in E. split; [| exact E].
    unfold Int64.max, Int64.min in E. destruct E; subst v; reflexivity.
Qed.

Lemma C3_content_length_fallback_witness :
  exists r,
    outcome (Generate
               (Sample.world
                  (inl (Sample.response "200 OK" 200
                          [("Content-Length", "99999999999999999999")] Sample.pdf)))
               Sample.client Sample.background "tpl-1" None) = inl r /\
    GenerateResponse.ContentLength r = 9223372036854775807.
Proof.
  destruct (C3_content_length_fallback _ _ _ _ _ _ (bytes_of_string Sample.pdf)
              (Sample_dispatches
                 (inl (Sample.response "200 OK" 200
                         [("Content-Length", "99999999999999999999")] Sample.pdf))
                 Sample.client Sample.background "tpl-1" None eq_refl)
              eq_refl eq_refl) as (r & Hr & Hc & _).
  exists r. split; [exact Hr |]. rewrite Hc. vm_compute. reflexivity.
Defined.

(** C3, as stated, fails: the header abc does not parse, and neither does
    the empty text an absent header gives; in both cases the content
    length of the result is the length of the payload all the same, not
    the value the failed parse returned. *)
Lemma C3_counterexample :
  let unparseable :=
    Sample.response "200 OK" 200 [("Content-Length", "abc")] Sample.pdf in
  let without := Sample.response "200 OK" 200 [] Sample.pdf in
  strconv.ParseInt (http.Get (Response.Header unparseable) "Content-Length")
    = (0, Some strconv.ErrSyntax) /\
  strconv.ParseInt (http.Get (Response.Header without) "Content-Length")
    = (0, Some strconv.ErrSyntax) /\
  (exists r,
     outcome (Generate (Sample.world (inl unparseable)) Sample.client
                Sample.background "tpl-1" None) = inl r /\
     GenerateResponse.ContentLength r
       = Z.of_nat (List.length (GenerateResponse.PDF r)) /\
     GenerateResponse.ContentLength r = 8) /\
  (exists r,
     outcome (Generate (Sample.world (inl without)) Sample.client
                Sample.background "tpl-1" None) = inl r /\
     GenerateResponse.ContentLength r
       = Z.of_nat (List.length (GenerateResponse.PDF r)) /\
     GenerateResponse.ContentLength r = 8).
Proof.
  split; [vm_compute; reflexivity |]. split; [vm_compute; reflexivity |].
  split; (eexists; split; [vm_compute; reflexivity |]; split; reflexivity).
Qed.

(* ===================================================================== *)
(** ** Failures of the dispatch *)

(** C4. When the dispatch fails: if the deadline of the context has been
    exceeded, Generate fails with a timeout error that carries the
    timeout of the client's configuration; any other failure of the
    transport gives a network error that wraps the cause. *)
Theorem C4_dispatch_failure w c ctx templateID request (cause : error) :
  dispatches w c ctx templateID request (inr cause) ->
  (Context.Err ctx = Some context_DeadlineExceeded ->
   outcome (Generate w c ctx templateID request)
     = inr (ETimeout {| TimeoutError.Timeout := Config.Timeout (Client.config c) |})) /\
  (Context.Err ctx <> Some context_DeadlineExceeded ->
   outcome (Generate w c ctx templateID request)
     = inr (ENetwork "request failed" (Some cause)) /\
   Unwrap (ENetwork "request failed" (Some cause)) = Some cause).
Proof.
  intros Hd. rewrite (Generate_dispatches _ _ _ _ _ _ Hd). simpl. split.
  - intros ->. reflexivity.
  - intros Hne. split; [| reflexivity].
    destruct (Context.Err ctx) as [[] |]; try reflexivity. now destruct Hne.
Qed.

Lemma C4_dispatch_failure_witness :
  outcome (Generate (Sample.world (inr Sample.refused)) Sample.client
             Sample.expired "tpl-1" None)
    = inr (ETimeout {| TimeoutError.Timeout := 10 |}) /\
  outcome (Generate (Sample.world (inr Sample.refused)) Sample.client
             Sample.canceled "tpl-1" None)
    = inr (ENetwork "request failed" (Some Sample.refused)).
Proof.
  split.
  - apply (C4_dispatch_failure _ _ _ _ _ _
             (Sample_dispatches (inr Sample.refused) Sample.client
                Sample.expired "tpl-1" None eq_refl)).
    reflexivity.
  - apply (C4_dispatch_failure _ _ _ _ _ _
             (Sample_dispatches (inr Sample.refused) Sample.client
                Sample.canceled "tpl-1" None eq_refl)).
    discriminate.
Defined.

(* ===================================================================== *)
(** ** The error classifier *)

(** The body [parseErrorResponse] goes on with: the decoded one, or the
    synthesized one when the decoding reports an error. *)
Lemma parseErrorResponse_eq c resp :
  exists b,
    parseErrorResponse c resp =
      (if Response.StatusCode resp =? 429
       then ERateLimit
              {| RateLimitError.APIError_ := apiErrorOf resp b;
                 RateLimitError.RetryAfter :=
                   fst (strconv.Atoi (http.Get (Response.Header resp) "Retry-After")) |}
       else EAPI (apiErrorOf resp b)) /\
    (forall d, Unmarshal.into (fst (Response.Body resp)) APIErrorResponse.zero = (d, None) ->
               b = d) /\
    (forall d e, Unmarshal.into (fst (Response.Body resp)) APIErrorResponse.zero = (d, Some e) ->
                 b = {| APIErrorResponse.Error := "Unknown Error";
                        APIErrorResponse.Message := Response.Status resp;
                        APIErrorResponse.Details := json.Null |}).
Proof.
  unfold parseErrorResponse, apiErrorOf.
  destruct (Unmarshal.into _ _) as [d [e |]]; eexists; (split; [reflexivity |]);
    split; intros ? **; congruence.
Qed.

(** C5, as the code has it. The generic API error has the status code of
    the response and the code, message and details of the decoded body,
    or the code Unknown Error and the status line when the decoding
    reports an error. For a response with status code 429 the
    classifier returns the generic API error wrapped in a rate-limit
    error that carries the value Atoi returns for the Retry-After header:
    the integer the header spells, 0 when the header is absent or is no
    decimal numeral, and the nearest bound of int when the numeral is out
    of range. For every other status it returns the generic API error
    unwrapped. A 429 response with Retry-After: 5 and the body with error
    RateLimited and message slow down gives a rate-limit error with status
    429, code RateLimited, message slow down and retry-after 5. *)
Theorem C5_rate_limit c resp :
  let retry := strconv.Atoi (http.Get (Response.Header resp) "Retry-After") in
  (exists b,
     (Response.StatusCode resp = 429 ->
      parseErrorResponse c resp =
        ERateLimit {| RateLimitError.APIError_ := apiErrorOf resp b;
                      RateLimitError.RetryAfter := fst retry |}) /\
     (Response.StatusCode resp <> 429 ->
      parseErrorResponse c resp = EAPI (apiErrorOf resp b)) /\
     (forall d,
        Unmarshal.into (fst (Response.Body resp)) APIErrorResponse.zero = (d, None) ->
        b = d) /\
     (forall d e,
        Unmarshal.into (fst (Response.Body resp)) APIErrorResponse.zero = (d, Some e) ->
        b = {| APIErrorResponse.Error := "Unknown Error";
               APIErrorResponse.Message := Response.Status resp;
               APIErrorResponse.Details := json.Null |})) /\
  (absent (Response.Header resp) "Retry-After" -> fst retry = 0) /\
  (snd retry = Some strconv.ErrSyntax -> fst retry = 0) /\
  (snd retry = Some strconv.ErrRange ->
   fst retry = Int64.max \/ fst retry = Int64.min) /\
  parseErrorResponse c Sample.rateLimited =
    ERateLimit
      {| RateLimitError.APIError_ :=
           {| APIError.StatusCode := 429;
              APIError.ErrorCode := "RateLimited";
              APIError.Message := "slow down";
              APIError.Details := json.Null |};
         RateLimitError.RetryAfter := 5 |}.
Proof.
  intros retry. split; [| split; [| split; [| split]]].
  - destruct (parseErrorResponse_eq c resp) as (b & Hp & Hd & Hf).
    exists b. rewrite Hp. split; [| split; [| split; [exact Hd | exact Hf]]].
    + intros ->. reflexivity.
    + intros Hne. apply Z.eqb_neq in Hne. now rewrite Hne.
  - intros Ha. subst retry. rewrite (Get_absent _ _ Ha). reflexivity.
  - subst retry. unfold strconv.Atoi.
    destruct (strconv.ParseInt _) as [v e] eqn:E. simpl. intros ->.
    now apply ParseInt_syntax in E.
  - subst retry. unfold strconv.Atoi.
    destruct (strconv.ParseInt _) as [v e] eqn:E. simpl. intros ->.
    now apply ParseInt_range in E.
  - vm_compute. reflexivity.
Qed.

Lemma C5_rate_limit_witness :
  parseErrorResponse Sample.client
    (Sample.response "429 Too Many Requests" 429 [("Retry-After", "soon")] "{}")
  = ERateLimit
      {| RateLimitError.APIError_ :=
           {| APIError.StatusCode := 429; APIError.ErrorCode := "";
              APIError.Message := ""; APIError.Details := json.Null |};
         RateLimitError.RetryAfter := 0 |}.
Proof.
  destruct (C5_rate_limit Sample.client
              (Sample.response "429 Too Many Requests" 429 [("Retry-After", "soon")] "{}"))
    as ((b & H429 & _ & Hb & _) & _ & Hsyn & _).
  rewrite (H429 eq_refl), (Hsyn ltac:(vm_compute; reflexivity)).
  rewrite (Hb APIErrorResponse.zero ltac:(vm_compute; reflexivity)).
  reflexivity.
Defined.

(** C5, as stated, fails: a Retry-After header of twenty nines does not
    parse as an int, and the rate-limit error carries the largest int,
    not 0. *)
Lemma C5_counterexample :
  let resp :=
    Sample.response "429 Too Many Requests" 429
      [("Retry-After", "99999999999999999999")]
      (q "{'error':'RateLimited','message':'slow down'}") in
  strconv.Atoi (http.Get (Response.Header resp) "Retry-After")
    = (9223372036854775807, Some strconv.ErrRange) /\
  parseErrorResponse Sample.client resp =
    ERateLimit
      {| RateLimitError.APIError_ :=
           {| APIError.StatusCode := 429;
              APIError.ErrorCode := "RateLimited";
              APIError.Message := "slow down";
              APIError.Details := json.Null |};
         RateLimitError.RetryAfter := 9223372036854775807 |}.
Proof. split; vm_compute; reflexivity. Qed.

(** C6. For a response whose body is not valid JSON, the classifier
    builds its error from the fixed code Unknown Error and the status
    line of the response, and it returns that error, wrapped for status
    429, whatever the reading of the body gave; Generate returns it as the
    error of the call for every status other than 200. *)
Theorem C6_invalid_json c resp :
  json.Valid (string_of_bytes (fst (Response.Body resp))) = false ->
  let fallback :=
    {| APIError.StatusCode := Response.StatusCode resp;
       APIError.ErrorCode := "Unknown Error";
       APIError.Message := Response.Status resp;
       APIError.Details := json.Null |} in
  apiError (parseErrorResponse c resp) = Some fallback /\
  (Response.StatusCode resp <> 429 -> parseErrorResponse c resp = EAPI fallback) /\
  (Response.StatusCode resp = 429 ->
   parseErrorResponse c resp =
     ERateLimit
       {| RateLimitError.APIError_ := fallback;
          RateLimitError.RetryAfter :=
            fst (strconv.Atoi (http.Get (Response.Header resp) "Retry-After")) |}) /\
  (forall w ctx templateID request,
     dispatches w c ctx templateID request (inl resp) ->
     Response.StatusCode resp <> 200 ->
     outcome (Generate w c ctx templateID request) = inr (parseErrorResponse c resp)).
Proof.
  intros Hv fallback.
  assert (Hp : parseErrorResponse c resp =
               if Response.StatusCode resp =? 429
               then ERateLimit
                      {| RateLimitError.APIError_ := fallback;
                         RateLimitError.RetryAfter :=
                           fst (strconv.Atoi
                                  (http.Get (Response.Header resp) "Retry-After")) |}
               else EAPI fallback).
  { unfold parseErrorResponse, Unmarshal.into, json.Valid in *.
    destruct (json.parse _); [discriminate | reflexivity]. }
  split; [| split; [| split]].
  - rewrite Hp. now destruct (_ =? 429).
  - intros Hne. apply Z.eqb_neq in Hne. now rewrite Hp, Hne.
  - intros He. now rewrite Hp, He.
  - intros w ctx templateID request Hd Hne.
    rewrite (Generate_dispatches _ _ _ _ _ _ Hd). unfold afterDispatch.
    apply Z.eqb_neq in Hne. unfold http.StatusOK. now rewrite Hne.
Qed.

Lemma C6_invalid_json_witness :
  parseErrorResponse Sample.client Sample.badGateway =
    EAPI {| APIError.StatusCode := 502;
            APIError.ErrorCode := "Unknown Error";
            APIError.Message := "502 Bad Gateway";
            APIError.Details := json.Null |} /\
  outcome (Generate (Sample.world (inl Sample.badGateway)) Sample.client
             Sample.background "tpl-1" None)
    = inr (parseErrorResponse Sample.client Sample.badGateway).
Proof.
  destruct (C6_invalid_json Sample.client Sample.badGateway
              ltac:(vm_compute; reflexivity)) as (_ & Hne & _ & Hg).
  split.
  - apply Hne. discriminate.
  - apply Hg; [| discriminate].
    exact (Sample_dispatches (inl Sample.badGateway) Sample.client
             Sample.background "tpl-1" None eq_refl).
Defined.

(* ===================================================================== *)
(** ** The empty template ID *)

(** C7. A call of Generate with an empty template ID returns a validation
    error and does nothing else: it has no event, so no request is
    dispatched, whatever the world, the client, the context and the
    request are. *)
Theorem C7_empty_template_id w c ctx request :
  events (Generate w c ctx "" request) = [] /\
  existsb isDispatch (events (Generate w c ctx "" request)) = false /\
  exists e,
    outcome (Generate w c ctx "" request) = inr (EAPI e) /\
    APIError.IsValidationError e = true.
Proof.
  split; [reflexivity |]. split; [reflexivity |].
  eexists. split; reflexivity.
Qed.

(** C10. The error Generate returns for an empty template ID is an
    APIError with status code 400, error code Bad Request and nil
    details; its validation predicate holds, and the classifier returns
    the very same value for a 400 response whose body carries that code
    and that message, so that nothing in the error tells the two apart. *)
Theorem C10_validation_error_shape w c ctx request :
  let e :=
    {| APIError.StatusCode := 400;
       APIError.ErrorCode := "Bad Request";
       APIError.Message := "Template ID is required";
       APIError.Details := json.Null |} in
  outcome (Generate w c ctx "" request) = inr (EAPI e) /\
  APIError.IsValidationError e = true /\
  Response.StatusCode Sample.badRequest = 400 /\
  parseErrorResponse c Sample.badRequest = EAPI e /\
  outcome (Generate (Sample.world (inl Sample.badRequest)) c ctx "tpl-1" request)
    = outcome (Generate w c ctx "" request).
Proof.
  intros e. split; [reflexivity |]. split; [reflexivity |].
  split; [reflexivity |].
  assert (Hp : parseErrorResponse c Sample.badRequest = EAPI e)
    by (vm_compute; reflexivity).
  split; [exact Hp |].
  rewrite (Generate_dispatches _ _ _ _ _ _
             (Sample_dispatches (inl Sample.badRequest) c ctx "tpl-1" request eq_refl)).
  unfold afterDispatch. change (negb (_ =? http.StatusOK)) with true.
  cbv iota. rewrite Hp. reflexivity.
Qed.

(* ===================================================================== *)
(** ** Construction *)

(** C8, as the code has it. With an empty API key New fails with the
    configuration error; with any other key it succeeds, the base URL of
    the client is the default exactly when the field is empty (and the
    field without a trailing slash otherwise), and the timeout is the
    default 30 exactly when the field is zero or negative. *)
Theorem C8_New config :
  (Config.APIKey config = "" ->
   New config
     = inr (EDocumentStack {| DocumentStackError.Message := "API key is required" |})) /\
  (Config.APIKey config <> "" ->
   exists c,
     New config = inl c /\
     Config.APIKey (Client.config c) = Config.APIKey config /\
     Config.BaseURL (Client.config c) =
       (if String.eqb (Config.BaseURL config) ""
        then "https://api.documentstack.dev"
        else strings.TrimSuffix (Config.BaseURL config) "/") /\
     Config.Timeout (Client.config c) =
       (if Config.Timeout config <=? 0 then 30 else Config.Timeout config)).
Proof.
  unfold New. split.
  - intros ->. reflexivity.
  - intros Hk. apply String.eqb_neq in Hk. rewrite Hk.
    eexists. split; [reflexivity |]. simpl. split; [reflexivity |].
    split; [| reflexivity].
    destruct (String.eqb (Config.BaseURL config) ""); reflexivity.
Qed.

Lemma C8_New_witness :
  New {| Config.APIKey := ""; Config.BaseURL := ""; Config.Timeout := 0;
         Config.Headers := None; Config.Debug := false |}
    = inr (EDocumentStack {| DocumentStackError.Message := "API key is required" |}) /\
  New Sample.config = inl Sample.client /\
  exists c,
    New {| Config.APIKey := "key"; Config.BaseURL := ""; Config.Timeout := 0;
           Config.Headers := None; Config.Debug := false |} = inl c /\
    Config.BaseURL (Client.config c) = "https://api.documentstack.dev" /\
    Config.Timeout (Client.config c) = 30.
Proof.
  split; [| split].
  - apply (C8_New {| Config.APIKey := ""; Config.BaseURL := ""; Config.Timeout := 0;
                     Config.Headers := None; Config.Debug := false |}).
    reflexivity.
  - reflexivity.
  - destruct (proj2 (C8_New {| Config.APIKey := "key"; Config.BaseURL := "";
                               Config.Timeout := 0; Config.Headers := None;
                               Config.Debug := false |}))
      as (c & Hc & _ & Hb & Ht); [discriminate |].
    exists c. split; [exact Hc |]. split; [exact Hb | exact Ht].
Defined.

(** C8, as stated, fails: a timeout of -5 is not zero, and the client has
    the default timeout all the same. *)
Lemma C8_counterexample :
  let config :=
    {| Config.APIKey := "key"; Config.BaseURL := ""; Config.Timeout := -5;
       Config.Headers := None; Config.Debug := false |} in
  Config.Timeout config <> 0 /\
  exists c, New config = inl c /\ Config.Timeout (Client.config c) = 30.
Proof.
  split; [discriminate |]. eexists. split; reflexivity.
Qed.

(* ===================================================================== *)
(** ** Categories *)

(** C9. The error made from a 404 response satisfies the not-found
    predicate and none of the other five; and of any one error at most one
    of the six category predicates holds. *)
Theorem C9_categories :
  (forall c resp,
     Response.StatusCode resp = 404 ->
     exists e,
       parseErrorResponse c resp = EAPI e /\
       APIError.IsNotFoundError e = true /\
       APIError.IsValidationError e = false /\
       APIError.IsAuthenticationError e = false /\
       APIError.IsForbiddenError e = false /\
       APIError.IsRateLimitError e = false /\
       APIError.IsServerError e = false) /\
  (forall e : APIError.t, (categoriesOf e <= 1)%nat) /\
  (forall e a, apiError e = Some a -> (categoriesOf a <= 1)%nat).
Proof.
  assert (Hone : forall e : APIError.t, (categoriesOf e <= 1)%nat).
  { intros e. unfold categoriesOf, categories. simpl.
    unfold APIError.IsValidationError, APIError.IsAuthenticationError,
      APIError.IsForbiddenError, APIError.IsNotFoundError,
      APIError.IsRateLimitError, APIError.IsServerError.
    destruct (Z.eqb_spec (APIError.StatusCode e) 400);
      destruct (Z.eqb_spec (APIError.StatusCode e) 401);
      destruct (Z.eqb_spec (APIError.StatusCode e) 403);
      destruct (Z.eqb_spec (APIError.StatusCode e) 404);
      destruct (Z.eqb_spec (APIError.StatusCode e) 429);
      destruct (Z.leb_spec 500 (APIError.StatusCode e)); simpl; lia. }
  split; [| split; [exact Hone | intros e a _; apply Hone]].
  intros c resp Hs.
  destruct (parseErrorResponse_eq c resp) as (b & Hp & _).
  rewrite Hs in Hp. exists (apiErrorOf resp b). split; [exact Hp |].
  unfold APIError.IsNotFoundError, APIError.IsValidationError,
    APIError.IsAuthenticationError, APIError.IsForbiddenError,
    APIError.IsRateLimitError, APIError.IsServerError, apiErrorOf.
  simpl. rewrite Hs. repeat split; reflexivity.
Qed.

Lemma C9_categories_witness :
  exists e,
    parseErrorResponse Sample.client Sample.notFound = EAPI e /\
    APIError.IsNotFoundError e = true /\
    APIError.IsServerError e = false.
Proof.
  destruct (proj1 C9_categories Sample.client Sample.notFound eq_refl)
    as (e & He & Hnf & _ & _ & _ & _ & Hse).
  exists e. split; [exact He |]. split; [exact Hnf | exact Hse].
Defined.

(* ===================================================================== *)
(** ** strconv: numerals *)

Lemma digit_val_range c :
  strconv.is_digit c = true -> 0 <= strconv.digit_val c <= 9.
Proof.
  unfold strconv.is_digit, strconv.digit_val. intros H.
  apply andb_true_iff in H. destruct H as [H1 H2].
  apply Nat.leb_le in H1. apply Nat.leb_le in H2. lia.
Qed.

Lemma decimalFrom_ge s n :
  allBytes strconv.is_digit s = true -> 0 <= n -> n <= decimalFrom s n.
Proof.
  revert n. induction s as [| c s IH]; intros n Hs Hn; simpl in *; [lia |].
  apply andb_true_iff in Hs. destruct Hs as [Hc Hs].
  apply digit_val_range in Hc.
  specialize (IH (n * 10 + strconv.digit_val c) Hs). lia.
Qed.

(** The loop of [ParseUint] on digits: their value when it fits in 64
    bits, the largest value and a range error when it does not. *)
Lemma parseUintLoop_digits s n :
  allBytes strconv.is_digit s = true ->
  0 <= n <= Uint64.max ->
  strconv.parseUintLoop s n =
    if decimalFrom s n <=? Uint64.max
    then (decimalFrom s n, None)
    else (Uint64.max, Some strconv.ErrRange).
Proof.
  revert n. induction s as [| c s IH]; intros n Hs Hn; simpl in *.
  - destruct (Z.leb_spec n Uint64.max); [reflexivity | lia].
  - apply andb_true_iff in Hs. destruct Hs as [Hc Hs]. rewrite Hc. simpl.
    pose proof (digit_val_range c Hc) as Hd.
    unfold Uint64.max in *.
    destruct (Z.leb_spec ((2 ^ 64 - 1) / 10 + 1) n) as [Hcut | Hcut].
    + assert (2 ^ 64 - 1 < n * 10 + strconv.digit_val c).
      { change ((2 ^ 64 - 1) / 10 + 1) with 1844674407370955162 in Hcut. lia. }
      pose proof (decimalFrom_ge s (n * 10 + strconv.digit_val c) Hs ltac:(lia)).
      destruct (Z.leb_spec (decimalFrom s (n * 10 + strconv.digit_val c)) (2 ^ 64 - 1));
        [lia | reflexivity].
    + destruct (Z.ltb_spec (2 ^ 64 - 1) (n * 10 + strconv.digit_val c)) as [Hov | Hov].
      * pose proof (decimalFrom_ge s (n * 10 + strconv.digit_val c) Hs ltac:(lia)).
        destruct (Z.leb_spec (decimalFrom s (n * 10 + strconv.digit_val c)) (2 ^ 64 - 1));
          [lia | reflexivity].
      * apply IH; [exact Hs | lia].
Qed.

Lemma isNumeral_inv s :
  isNumeral s = true ->
  exists c rest,
    s = String c rest /\ strconv.is_digit c = true /\
    allBytes strconv.is_digit s = true.
Proof.
  unfold isNumeral. intros H. apply andb_true_iff in H. destruct H as [Hne Hd].
  destruct s as [| c rest]; [discriminate |]. exists c, rest.
  simpl in Hd. pose proof Hd as Hd'. apply andb_true_iff in Hd'. simpl. tauto.
Qed.

Lemma digit_not_sign c :
  strconv.is_digit c = true -> Ascii.eqb c "+" || Ascii.eqb c "-" = false.
Proof.
  intros H.
  destruct (Ascii.eqb_spec c "+") as [-> |]; [discriminate H |].
  destruct (Ascii.eqb_spec c "-") as [-> |]; [discriminate H | reflexivity].
Qed.

(** [ParseInt] on a numeral: its value when it fits in int64, the largest
    int64 and a range error when it does not. *)
Lemma ParseInt_numeral s :
  isNumeral s = true ->
  strconv.ParseInt s =
    if decimal s <=? Int64.max
    then (decimal s, None)
    else (Int64.max, Some strconv.ErrRange).
Proof.
  intros H. destruct (isNumeral_inv s H) as (c & rest & -> & Hc & Hs).
  unfold strconv.ParseInt. rewrite (digit_not_sign c Hc).
  destruct (Ascii.eqb_spec c "-") as [-> |]; [discriminate Hc |].
  unfold strconv.ParseUint. rewrite (parseUintLoop_digits _ 0 Hs)
    by (unfold Uint64.max; lia).
  fold (decimal (String c rest)).
  pose proof (decimalFrom_ge _ 0 Hs ltac:(lia)) as Hge.
  fold (decimal (String c rest)) in Hge.
  unfold Uint64.max, Int64.max.
  destruct (Z.leb_spec (decimal (String c rest)) (2 ^ 64 - 1)) as [Hu | Hu];
    simpl negb; simpl andb.
  - destruct (Z.leb_spec (2 ^ 63) (decimal (String c rest)));
      destruct (Z.leb_spec (decimal (String c rest)) (2 ^ 63 - 1));
      try lia; reflexivity.
  - destruct (Z.leb_spec (decimal (String c rest)) (2 ^ 63 - 1)); [lia |].
    reflexivity.
Qed.

(** [ParseInt] on a numeral after a minus sign. *)
Lemma ParseInt_negative s :
  isNumeral s = true ->
  strconv.ParseInt (String "-" s) =
    if decimal s <=? 2 ^ 63
    then (- decimal s, None)
    else (Int64.min, Some strconv.ErrRange).
Proof.
  intros H. destruct (isNumeral_inv s H) as (c & rest & -> & Hc & Hs).
  unfold strconv.ParseInt.
  change (Ascii.eqb "-" "+" || Ascii.eqb "-" "-") with true.
  change (Ascii.eqb "-" "-") with true. cbv iota.
  unfold strconv.ParseUint. rewrite (parseUintLoop_digits _ 0 Hs)
    by (unfold Uint64.max; lia).
  fold (decimal (String c rest)).
  pose proof (decimalFrom_ge _ 0 Hs ltac:(lia)) as Hge.
  fold (decimal (String c rest)) in Hge.
  unfold Uint64.max, Int64.min.
  destruct (Z.leb_spec (decimal (String c rest)) (2 ^ 64 - 1)) as [Hu | Hu];
    simpl negb; simpl andb.
  - destruct (Z.ltb_spec (2 ^ 63) (decimal (String c rest)));
      destruct (Z.leb_spec (decimal (String c rest)) (2 ^ 63));
      try lia; reflexivity.
  - destruct (Z.leb_spec (decimal (String c rest)) (2 ^ 63)); [lia |].
    reflexivity.
Qed.

Lemma parseUintLoop_nonneg s n v e :
  0 <= n -> strconv.parseUintLoop s n = (v, e) -> 0 <= v.
Proof.
  revert n. induction s as [| c s IH]; intros n Hn; simpl.
  - intros [= <- _]. exact Hn.
  - destruct (strconv.is_digit c) eqn:Hc; simpl; [| intros [= <- _]; lia].
    apply digit_val_range in Hc.
    destruct (_ <=? n); [intros [= <- _]; unfold Uint64.max; lia |].
    destruct (_ <? _); [intros [= <- _]; unfold Uint64.max; lia |].
    apply IH. lia.
Qed.

(** Whatever the text, the value [ParseInt] returns is an int64. *)
Lemma ParseInt_in_range s : Int64.in_range (fst (strconv.ParseInt s)).
Proof.
  unfold Int64.in_range, Int64.min, Int64.max, strconv.ParseInt.
  destruct s as [| c rest]; [simpl; lia |].
  destruct (strconv.ParseUint _) as [un e] eqn:E.
  assert (Hun : 0 <= un).
  { unfold strconv.ParseUint in E.
    destruct (if Ascii.eqb c "+" || Ascii.eqb c "-" then rest else String c rest);
      [injection E as <- _; lia |].
    eapply parseUintLoop_nonneg; [| exact E]. lia. }
  destruct e as [[] |]; [simpl; lia | |].
  all: destruct (Z.leb_spec (2 ^ 63) un); destruct (Z.ltb_spec (2 ^ 63) un);
    destruct (Ascii.eqb c "-"); simpl; lia.
Qed.

(* ===================================================================== *)
(** ** The trace of a call *)

Lemma effects_bind {A B} (m : io A) (f : A -> io B) :
  effects (bind m f) =
  match outcome m with
  | inl a => (effects m ++ effects (f a))%list
  | inr e => effects m
  end.
Proof.
  unfold effects. rewrite events_bind.
  destruct (outcome m); [apply List.filter_app | reflexivity].
Qed.

Lemma effects_defer {A} (m : io A) :
  effects (defer BodyClose m) = (effects m ++ [BodyClose])%list.
Proof.
  destruct m as [t r]. unfold effects, events. simpl.
  now rewrite List.filter_app.
Qed.

(** Logging leaves no effect. *)
Lemma effects_logged {A} b (m : io unit) (k : io A) :
  outcome m = inl tt -> effects m = [] ->
  effects (bind (when b m) (fun _ => k)) = effects k.
Proof.
  intros Ho He. rewrite effects_bind, (outcome_when b m Ho).
  destruct b; simpl; [now rewrite He | reflexivity].
Qed.

Ltac unlogged :=
  rewrite effects_logged
    by (repeat (rewrite ?outcome_bind, ?outcome_emit); reflexivity).

(** What [Generate] returns, stage by stage. *)
Lemma Generate_outcome w c ctx templateID request :
  outcome (Generate w c ctx templateID request) =
  if String.eqb templateID "" then
    inr (EAPI (NewValidationError "Template ID is required" json.Null))
  else
    match snd (World.json_Marshal w (default GenerateRequest.zero request)) with
    | Some err => inr (ENetwork "failed to marshal request body" (Some err))
    | None =>
        match World.http_NewRequestWithContext w "POST" (endpoint c templateID) with
        | Some err => inr (ENetwork "failed to create request" (Some err))
        | None =>
            afterDispatch c ctx
              (World.Do w (Client.httpClient c) (requestOf w c ctx templateID request))
        end
    end.
Proof.
  destruct (String.eqb templateID "") eqn:Hid.
  - unfold Generate. now rewrite Hid.
  - destruct (snd (World.json_Marshal w _)) as [e |] eqn:Hm.
    + unfold Generate. rewrite Hid.
      destruct (World.json_Marshal w _) as [body o]. simpl in Hm. now subst o.
    + destruct (World.http_NewRequestWithContext w "POST" _) as [e |] eqn:Hn.
      * unfold Generate, endpoint in *. rewrite Hid.
        destruct (World.json_Marshal w _) as [body o]. simpl in Hm. subst o.
        logged. now rewrite Hn.
      * apply Generate_dispatches. split; auto. now apply String.eqb_neq.
Qed.

(** What [Generate] does apart from logging: nothing, or the dispatch of
    its request, followed by the closing of the body when the transport
    has given a response. *)
Lemma Generate_effects w c ctx templateID request :
  effects (Generate w c ctx templateID request) =
  if reachesDispatch w c templateID request then
    Dispatch (requestOf w c ctx templateID request)
    :: match World.Do w (Client.httpClient c) (requestOf w c ctx templateID request) with
       | inl _ => [BodyClose]
       | inr _ => []
       end
  else [].
Proof.
  unfold reachesDispatch, Generate, requestOf, endpoint.
  destruct (String.eqb templateID ""); [reflexivity |].
  destruct (World.json_Marshal w (default GenerateRequest.zero request))
    as [body [e |]]; [reflexivity |]. cbn [snd fst andb].
  unlogged.
  destruct (World.http_NewRequestWithContext w "POST" _); [reflexivity |].
  rewrite effects_bind, outcome_emit.
  change (effects (emit (Dispatch ?r))) with [Dispatch r]. simpl app. f_equal.
  destruct (World.Do w _ _) as [resp | err].
  - rewrite effects_defer.
    destruct (negb _); [reflexivity |].
    destruct (Response.Body resp) as [pdf [e |]]; [reflexivity |].
    unlogged. reflexivity.
  - destruct (Context.Err ctx) as [[] |]; reflexivity.
Qed.

Lemma reachesDispatch_dispatches w c ctx templateID request :
  reachesDispatch w c templateID request = true <->
  exists out, dispatches w c ctx templateID request out.
Proof.
  unfold reachesDispatch. split.
  - intros H. apply andb_true_iff in H. destruct H as [H Hn].
    apply andb_true_iff in H. destruct H as [Hid Hm].
    apply negb_true_iff, String.eqb_neq in Hid.
    eexists. split; [exact Hid | | | reflexivity].
    + now destruct (snd _).
    + now destruct (World.http_NewRequestWithContext _ _ _).
  - intros [out [Hid Hm Hn _]]. apply String.eqb_neq in Hid.
    now rewrite Hid, Hm, Hn.
Qed.

Lemma filter_effects {A} (p : event -> bool) (m : io A) :
  (forall ev, p ev = true -> isLog ev = false) ->
  List.filter p (events m) = List.filter p (effects m).
Proof.
  intros Hp. unfold effects. induction (events m) as [| ev t IH]; [reflexivity |].
  simpl. destruct (isLog ev) eqn:Hl; simpl.
  - destruct (p ev) eqn:Hpe; [| exact IH]. apply Hp in Hpe. congruence.
  - now rewrite IH.
Qed.

(** X1. [Generate] never retries: a call dispatches at most one request;
    it dispatches one exactly when the template ID is not empty, the data
    is encoded and the request is built, and the request is then the one
    built from the client, the context and the arguments. *)
Theorem Generate_single_dispatch w c ctx templateID request :
  (count isDispatch (Generate w c ctx templateID request) <= 1)%nat /\
  (count isDispatch (Generate w c ctx templateID request) = 1%nat <->
   reachesDispatch w c templateID request = true) /\
  (forall req,
     In (Dispatch req) (events (Generate w c ctx templateID request)) ->
     req = requestOf w c ctx templateID request).
Proof.
  assert (Hf : List.filter isDispatch (events (Generate w c ctx templateID request)) =
               if reachesDispatch w c templateID request
               then [Dispatch (requestOf w c ctx templateID request)] else []).
  { rewrite filter_effects by (now intros []). rewrite Generate_effects.
    destruct (reachesDispatch w c templateID request); [| reflexivity].
    destruct (World.Do w _ _); reflexivity. }
  unfold count. rewrite Hf. split; [| split].
  - destruct (reachesDispatch _ _ _ _); simpl; lia.
  - destruct (reachesDispatch _ _ _ _); simpl; split; congruence.
  - intros req Hin.
    assert (Hin' : In (Dispatch req)
                     (List.filter isDispatch (events (Generate w c ctx templateID request))))
      by (apply List.filter_In; now split).
    rewrite Hf in Hin'. destruct (reachesDispatch _ _ _ _); [| now destruct Hin'].
    destruct Hin' as [[=] | []]. congruence.
Qed.

Lemma Generate_single_dispatch_witness :
  count isDispatch
    (Generate (Sample.world (inr Sample.refused)) Sample.client
       Sample.background "tpl-1" None) = 1%nat.
Proof.
  apply (proj2 (proj1 (proj2 (Generate_single_dispatch
                                (Sample.world (inr Sample.refused)) Sample.client
                                Sample.background "tpl-1" None)))).
  reflexivity.
Defined.

(** X2. Whenever the transport has given a response, whatever its status
    and whether or not its body can be read, [Generate] closes the body
    once, after the dispatch and as the last thing it does; when the
    dispatch fails it closes nothing. *)
Theorem Generate_closes_body w c ctx templateID request :
  (forall resp,
     dispatches w c ctx templateID request (inl resp) ->
     effects (Generate w c ctx templateID request)
       = [Dispatch (requestOf w c ctx templateID request); BodyClose] /\
     count isBodyClose (Generate w c ctx templateID request) = 1%nat) /\
  (forall err,
     dispatches w c ctx templateID request (inr err) ->
     effects (Generate w c ctx templateID request)
       = [Dispatch (requestOf w c ctx templateID request)] /\
     count isBodyClose (Generate w c ctx templateID request) = 0%nat).
Proof.
  split; intros out Hd.
  all: assert (Hr : reachesDispatch w c templateID request = true)
         by (apply (reachesDispatch_dispatches w c ctx); eauto).
  all: unfold count; rewrite filter_effects by (now intros []).
  all: rewrite Generate_effects, Hr, (dispatches_do _ _ _ _ _ _ Hd).
  all: split; reflexivity.
Qed.

Lemma Generate_closes_body_witness :
  effects (Generate (Sample.world (inl Sample.badGateway)) Sample.client
             Sample.background "tpl-1" None)
    = [Dispatch (requestOf (Sample.world (inl Sample.badGateway)) Sample.client
                   Sample.background "tpl-1" None);
       BodyClose] /\
  effects (Generate (Sample.world (inr Sample.refused)) Sample.client
             Sample.background "tpl-1" None)
    = [Dispatch (requestOf (Sample.world (inr Sample.refused)) Sample.client
                   Sample.background "tpl-1" None)].
Proof.
  split.
  - apply (proj1 (Generate_closes_body _ _ _ _ _) Sample.badGateway).
    exact (Sample_dispatches (inl Sample.badGateway) Sample.client
             Sample.background "tpl-1" None eq_refl).
  - apply (proj2 (Generate_closes_body _ _ _ _ _) Sample.refused).
    exact (Sample_dispatches (inr Sample.refused) Sample.client
             Sample.background "tpl-1" None eq_refl).
Defined.

(** X3. The failures before the dispatch. When the data cannot be
    encoded, [Generate] returns a network error that wraps the cause, and
    it has done nothing, not even logged. When the request cannot be
    built, it returns a network error that wraps the cause, and it has
    dispatched nothing. *)
Theorem Generate_fails_before_dispatch w c ctx templateID request (cause : error) :
  templateID <> "" ->
  (snd (World.json_Marshal w (default GenerateRequest.zero request)) = Some cause ->
   Generate w c ctx templateID request
     = ([], inr (ENetwork "failed to marshal request body" (Some cause)))) /\
  (snd (World.json_Marshal w (default GenerateRequest.zero request)) = None ->
   World.http_NewRequestWithContext w "POST" (endpoint c templateID) = Some cause ->
   outcome (Generate w c ctx templateID request)
     = inr (ENetwork "failed to create request" (Some cause)) /\
   effects (Generate w c ctx templateID request) = []).
Proof.
  intros Hid. apply String.eqb_neq in Hid. split.
  - intros Hm. unfold Generate. rewrite Hid.
    destruct (World.json_Marshal w _) as [body o]. simpl in Hm. now subst o.
  - intros Hm Hn. split.
    + now rewrite Generate_outcome, Hid, Hm, Hn.
    + rewrite Generate_effects. unfold reachesDispatch.
      rewrite Hn. now rewrite andb_false_r.
Qed.

Lemma Generate_fails_before_dispatch_witness :
  Generate
    {| World.json_Marshal := fun _ => ([], Some (EForeign "json: unsupported type"));
       World.http_NewRequestWithContext := fun _ _ => None;
       World.Do := fun _ _ => inr Sample.refused |}
    Sample.client Sample.background "tpl-1" None
  = ([], inr (ENetwork "failed to marshal request body"
                (Some (EForeign "json: unsupported type")))).
Proof.
  apply (Generate_fails_before_dispatch
           {| World.json_Marshal := fun _ => ([], Some (EForeign "json: unsupported type"));
              World.http_NewRequestWithContext := fun _ _ => None;
              World.Do := fun _ _ => inr Sample.refused |}
           Sample.client Sample.background "tpl-1" None
           (EForeign "json: unsupported type")).
  - discriminate.
  - reflexivity.
Defined.

Lemma Generate_result_inv w c ctx templateID request r :
  outcome (Generate w c ctx templateID request) = inl r ->
  exists resp,
    dispatches w c ctx templateID request (inl resp) /\
    Response.StatusCode resp = 200 /\
    Response.Body resp = (GenerateResponse.PDF r, None).
Proof.
  rewrite Generate_outcome.
  destruct (String.eqb templateID "") eqn:Hid; [discriminate |].
  destruct (snd (World.json_Marshal w _)) eqn:Hm; [discriminate |].
  destruct (World.http_NewRequestWithContext w "POST" _) eqn:Hn; [discriminate |].
  destruct (World.Do w _ _) as [resp | err] eqn:Hdo; simpl.
  - destruct (Z.eqb_spec (Response.StatusCode resp) http.StatusOK) as [Hs |];
      [| discriminate]. simpl.
    destruct (Response.Body resp) as [pdf [e |]] eqn:Hb; [discriminate |].
    intros [= <-]. exists resp. repeat split; auto.
    now apply String.eqb_neq.
  - destruct (Context.Err ctx) as [[] |]; discriminate.
Qed.

(** X4. [Generate] returns a result only for a response with status 200
    whose body was read to its end without error, and the PDF of the
    result is that body: every other status, 201 and 204 included, and
    every failure to read give an error. *)
Theorem Generate_result_only_on_200 w c ctx templateID request r :
  outcome (Generate w c ctx templateID request) = inl r ->
  exists resp,
    dispatches w c ctx templateID request (inl resp) /\
    Response.StatusCode resp = 200 /\
    Response.Body resp = (GenerateResponse.PDF r, None).
Proof. apply Generate_result_inv. Qed.

Lemma Generate_result_only_on_200_witness :
  exists resp,
    dispatches (Sample.world (inl (Sample.response "200 OK" 200 [] Sample.pdf)))
      Sample.client Sample.background "tpl-1" None (inl resp) /\
    Response.StatusCode resp = 200 /\
    Response.Body resp = (bytes_of_string Sample.pdf, None).
Proof.
  apply (Generate_result_only_on_200
           (Sample.world (inl (Sample.response "200 OK" 200 [] Sample.pdf)))
           Sample.client Sample.background "tpl-1" None
           {| GenerateResponse.PDF := bytes_of_string Sample.pdf;
              GenerateResponse.Filename := "document.pdf";
              GenerateResponse.GenerationTimeMs := 0;
              GenerateResponse.ContentLength := 8 |}).
  vm_compute. reflexivity.
Defined.

(** X5. Every error [Generate] returns is one the SDK makes: an API
    error, a rate-limit error, a timeout error or a network error that
    wraps its cause. An error of the standard library or of the context
    never comes back as it is. *)
Theorem Generate_errors_are_wrapped w c ctx templateID request e :
  outcome (Generate w c ctx templateID request) = inr e ->
  isSDKError e = true.
Proof.
  rewrite Generate_outcome.
  destruct (String.eqb templateID ""); [now intros [= <-] |].
  destruct (snd (World.json_Marshal w _)); [now intros [= <-] |].
  destruct (World.http_NewRequestWithContext w "POST" _); [now intros [= <-] |].
  destruct (World.Do w _ _) as [resp | err]; simpl.
  - destruct (negb _).
    + intros [= <-]. destruct (parseErrorResponse_eq c resp) as (b & -> & _).
      now destruct (_ =? 429).
    + destruct (Response.Body resp) as [pdf [e' |]]; [now intros [= <-] | discriminate].
  - destruct (Context.Err ctx) as [[] |]; now intros [= <-].
Qed.

Lemma Generate_errors_are_wrapped_witness :
  isSDKError (ENetwork "request failed" (Some Sample.refused)) = true.
Proof.
  apply (Generate_errors_are_wrapped (Sample.world (inr Sample.refused))
           Sample.client Sample.background "tpl-1" None).
  reflexivity.
Defined.

(* ===================================================================== *)
(** ** The debug flag *)

Lemma Generate_quiet w c ctx templateID request :
  Config.Debug (Client.config c) = false ->
  events (Generate w c ctx templateID request)
    = effects (Generate w c ctx templateID request).
Proof.
  intros Hq. unfold effects, Generate. rewrite Hq.
  destruct (String.eqb templateID ""); [reflexivity |].
  destruct (World.json_Marshal w _) as [body [e |]]; [reflexivity |].
  destruct (World.http_NewRequestWithContext w "POST" _); [reflexivity |].
  destruct (World.Do w _ _) as [resp | err].
  - destruct (negb (Response.StatusCode resp =? http.StatusOK)); [reflexivity |].
    destruct (Response.Body resp) as [pdf [e |]]; reflexivity.
  - destruct (Context.Err ctx) as [[] |]; reflexivity.
Qed.

(** X6. The debug flag changes nothing but the log: with the flag set or
    cleared a call returns the same value or error and has the same
    effects, the dispatch and the closing of the body; and with the flag
    cleared it logs nothing. *)
Theorem Generate_debug_is_observational w c ctx templateID request (b : bool) :
  outcome (Generate w (withDebug b c) ctx templateID request)
    = outcome (Generate w c ctx templateID request) /\
  effects (Generate w (withDebug b c) ctx templateID request)
    = effects (Generate w c ctx templateID request) /\
  count isLog (Generate w (withDebug false c) ctx templateID request) = 0%nat.
Proof.
  split; [| split].
  - rewrite !Generate_outcome. reflexivity.
  - rewrite !Generate_effects. reflexivity.
  - unfold count. rewrite Generate_quiet by reflexivity. unfold effects.
    induction (events _) as [| ev t IH]; [reflexivity |].
    simpl. destruct (isLog ev) eqn:E; simpl; [exact IH |].
    rewrite E. exact IH.
Qed.

(* ===================================================================== *)
(** ** strings: suffixes *)

Lemma HasSuffix_eq s suffix :
  strings.HasSuffix s suffix =
  if String.eqb s suffix then true
  else match s with
       | EmptyString => false
       | String _ rest => strings.HasSuffix rest suffix
       end.
Proof. destruct s; reflexivity. Qed.

Lemma HasSuffix_app u suffix : strings.HasSuffix (u ++ suffix) suffix = true.
Proof.
  induction u as [| c u IH]; rewrite HasSuffix_eq.
  - change ("" ++ suffix) with suffix. now rewrite String.eqb_refl.
  - rewrite string_app_cons, IH. now destruct (String.eqb _ _).
Qed.

Lemma HasSuffix_inv s suffix :
  strings.HasSuffix s suffix = true -> exists u, s = u ++ suffix.
Proof.
  induction s as [| c s IH]; rewrite HasSuffix_eq.
  - destruct (String.eqb_spec "" suffix) as [<- |]; [| discriminate].
    now exists "".
  - destruct (String.eqb_spec (String c s) suffix) as [<- |].
    + now exists "".
    + intros H. destruct (IH H) as (u & ->). now exists (String c u).
Qed.

(** [TrimSuffix] takes the suffix off once. *)
Lemma TrimSuffix_app u suffix : strings.TrimSuffix (u ++ suffix) suffix = u.
Proof.
  unfold strings.TrimSuffix. rewrite HasSuffix_app, string_length_app.
  replace (String.length u + String.length suffix - String.length suffix)%nat
    with (String.length u) by lia.
  apply substring_app.
Qed.

(* ===================================================================== *)
(** ** Construction, further *)

(** X7. [New] takes one trailing slash off the base URL, and no more: a
    base URL that is [u] followed by a slash becomes [u], even when [u]
    ends in a slash itself or is empty, and a base URL that is not empty
    and does not end in a slash is kept as it is. *)
Theorem New_strips_one_slash config :
  Config.APIKey config <> "" ->
  (forall u,
     Config.BaseURL config = u ++ "/" ->
     exists c, New config = inl c /\ Config.BaseURL (Client.config c) = u) /\
  (Config.BaseURL config <> "" ->
   strings.HasSuffix (Config.BaseURL config) "/" = false ->
   exists c,
     New config = inl c /\
     Config.BaseURL (Client.config c) = Config.BaseURL config).
Proof.
  intros Hk. apply String.eqb_neq in Hk. unfold New. rewrite Hk. split.
  - intros u Hu. eexists. split; [reflexivity |]. simpl. rewrite Hu.
    assert (Hne : String.eqb (u ++ "/") "" = false).
    { apply String.eqb_neq. destruct u; discriminate. }
    rewrite Hne. apply TrimSuffix_app.
  - intros Hne Hs. apply String.eqb_neq in Hne.
    eexists. split; [reflexivity |]. simpl. rewrite Hne.
    unfold strings.TrimSuffix. now rewrite Hs.
Qed.

Lemma New_strips_one_slash_witness :
  exists c,
    New {| Config.APIKey := "key"; Config.BaseURL := "https://x//";
           Config.Timeout := 10; Config.Headers := None; Config.Debug := false |}
      = inl c /\
    Config.BaseURL (Client.config c) = "https://x/".
Proof.
  apply (proj1 (New_strips_one_slash
                  {| Config.APIKey := "key"; Config.BaseURL := "https://x//";
                     Config.Timeout := 10; Config.Headers := None;
                     Config.Debug := false |}
                  ltac:(discriminate))
           "https://x/").
  reflexivity.
Defined.

Lemma wrap_id z : Int64.wrap z = z <-> Int64.in_range z.
Proof.
  unfold Int64.wrap, Int64.in_range, Int64.min, Int64.max. split.
  - intros H. pose proof (Z.mod_pos_bound (z + 2 ^ 63) (2 ^ 64) ltac:(lia)). lia.
  - intros H. rewrite Z.mod_small by lia. lia.
Qed.

(** X8. What every client built by [New] has: the API key of the
    configuration, which is not empty, a timeout of one second or more, a
    header map that is not nil (the configured one when there is one),
    and the debug flag of the configuration. *)
Theorem New_client_invariants config c :
  New config = inl c ->
  Config.APIKey (Client.config c) = Config.APIKey config /\
  Config.APIKey (Client.config c) <> "" /\
  1 <= Config.Timeout (Client.config c) /\
  (0 < Config.Timeout config ->
   Config.Timeout (Client.config c) = Config.Timeout config) /\
  Config.Headers (Client.config c)
    = Some (default ∅ (Config.Headers config)) /\
  Config.Debug (Client.config c) = Config.Debug config.
Proof.
  unfold New. destruct (String.eqb_spec (Config.APIKey config) "") as [| Hk];
    [discriminate |].
  intros [= <-]. simpl. unfold defaultTimeout.
  repeat split; auto.
  - destruct (Z.leb_spec (Config.Timeout config) 0); lia.
  - intros Hp. destruct (Z.leb_spec (Config.Timeout config) 0); [lia | reflexivity].
  - now destruct (Config.Headers config).
Qed.

Lemma New_client_invariants_witness :
  Config.APIKey (Client.config Sample.client) = "key" /\
  1 <= Config.Timeout (Client.config Sample.client) /\
  Config.Headers (Client.config Sample.client) = Some ∅.
Proof.
  destruct (New_client_invariants Sample.config Sample.client eq_refl)
    as (Hk & _ & Ht & _ & Hh & _).
  split; [exact Hk |]. split; [exact Ht | exact Hh].
Defined.

(** X9. The timeout of the transport of a client built by [New] is the
    timeout of the client in nanoseconds exactly when that timeout is at
    most 9223372036 seconds; above it the int64 product with
    [time.Second] overflows and the transport has another timeout. *)
Theorem New_transport_timeout config c :
  New config = inl c ->
  HTTPClient.Timeout (Client.httpClient c)
    = Int64.wrap (Config.Timeout (Client.config c) * 1000000000) /\
  (HTTPClient.Timeout (Client.httpClient c)
     = Config.Timeout (Client.config c) * 1000000000
   <-> Config.Timeout (Client.config c) <= 9223372036).
Proof.
  unfold New.
  destruct (String.eqb (Config.APIKey config) ""); [discriminate |].
  intros [= <-]. simpl. unfold time_Second, defaultTimeout.
  split; [reflexivity |]. rewrite wrap_id.
  unfold Int64.in_range, Int64.min, Int64.max.
  destruct (Z.leb_spec (Config.Timeout config) 0); lia.
Qed.

Lemma New_transport_timeout_witness :
  HTTPClient.Timeout (Client.httpClient Sample.client) = 10 * 1000000000.
Proof.
  apply (proj2 (New_transport_timeout Sample.config Sample.client eq_refl)).
  vm_compute. discriminate.
Defined.

(* ===================================================================== *)
(** ** The numbers of a result *)

Lemma ParseInt_numeral_min s :
  isNumeral s = true ->
  fst (strconv.ParseInt s) = Z.min (decimal s) Int64.max.
Proof.
  intros H. rewrite (ParseInt_numeral s H).
  destruct (Z.leb_spec (decimal s) Int64.max); simpl; lia.
Qed.

Lemma ParseInt_negative_max s :
  isNumeral s = true ->
  fst (strconv.ParseInt (String "-" s)) = Z.max (- decimal s) Int64.min.
Proof.
  intros H. rewrite (ParseInt_negative s H). unfold Int64.min.
  destruct (Z.leb_spec (decimal s) (2 ^ 63)); simpl; lia.
Qed.

(** X10. The generation time of a result is what the header
    X-Generation-Time-Ms spells: the value of a decimal numeral, cut at
    the largest int64; the negated value of a numeral after a minus sign,
    cut at the smallest int64; and 0 when the header is absent or is no
    numeral at all. It is an int64 in every case. *)
Theorem Generate_generation_time w c ctx templateID request resp (pdf : bytes) :
  dispatches w c ctx templateID request (inl resp) ->
  Response.StatusCode resp = 200 ->
  Response.Body resp = (pdf, None) ->
  let header := http.Get (Response.Header resp) "X-Generation-Time-Ms" in
  exists r,
    outcome (Generate w c ctx templateID request) = inl r /\
    Int64.in_range (GenerateResponse.GenerationTimeMs r) /\
    (isNumeral header = true ->
     GenerateResponse.GenerationTimeMs r = Z.min (decimal header) Int64.max) /\
    (forall s, header = String "-" s -> isNumeral s = true ->
     GenerateResponse.GenerationTimeMs r = Z.max (- decimal s) Int64.min) /\
    (absent (Response.Header resp) "X-Generation-Time-Ms" ->
     GenerateResponse.GenerationTimeMs r = 0) /\
    (snd (strconv.ParseInt header) = Some strconv.ErrSyntax ->
     GenerateResponse.GenerationTimeMs r = 0).
Proof.
  intros Hd Hs Hb header.
  rewrite (Generate_dispatches _ _ _ _ _ _ Hd).
  unfold afterDispatch. rewrite Hs, Hb. simpl negb. cbv iota.
  eexists. split; [reflexivity |].
  simpl GenerateResponse.GenerationTimeMs.
  fold header. split; [apply ParseInt_in_range |].
  split; [apply ParseInt_numeral_min |]. split; [| split].
  - intros s -> Hn. now apply ParseInt_negative_max.
  - intros Ha. subst header. rewrite (Get_absent _ _ Ha). reflexivity.
  - destruct (strconv.ParseInt header) as [v e] eqn:E. simpl. intros ->.
    now apply ParseInt_syntax in E.
Qed.

Lemma Generate_generation_time_witness :
  exists r,
    outcome (Generate
               (Sample.world
                  (inl (Sample.response "200 OK" 200
                          [("X-Generation-Time-Ms", "1234")] Sample.pdf)))
               Sample.client Sample.background "tpl-1" None) = inl r /\
    GenerateResponse.GenerationTimeMs r = 1234.
Proof.
  destruct (Generate_generation_time _ _ _ _ _ _ (bytes_of_string Sample.pdf)
              (Sample_dispatches
                 (inl (Sample.response "200 OK" 200
                         [("X-Generation-Time-Ms", "1234")] Sample.pdf))
                 Sample.client Sample.background "tpl-1" None eq_refl)
              eq_refl eq_refl) as (r & Hr & _ & Hn & _).
  exists r. split; [exact Hr |]. rewrite Hn by (vm_compute; reflexivity).
  vm_compute. reflexivity.
Defined.



(* ===================================================================== *)
(** ** The headers of the request *)

Lemma Get_Set_eq (h : http.Header) k v n :
  http.CanonicalMIMEHeaderKey k = http.CanonicalMIMEHeaderKey n ->
  http.Get (http.Set_ h k v) n = v.
Proof.
  intros H. unfold http.Get, http.Set_. now rewrite <- H, lookup_insert_eq.
Qed.

Lemma Get_Set_ne (h : http.Header) k v n :
  http.CanonicalMIMEHeaderKey k <> http.CanonicalMIMEHeaderKey n ->
  http.Get (http.Set_ h k v) n = http.Get h n.
Proof.
  intros H. unfold http.Get, http.Set_. now rewrite lookup_insert_ne.
Qed.

(** Setting the entries of a map one by one, in whatever order: a name no
    key of the map shares its canonical form with keeps its value, and a
    key that shares its canonical form with no other key has its own. *)
Lemma Get_map_fold (base : http.Header) (extra : gmap string string) :
  let h := map_fold (fun key value h => http.Set_ h key value) base extra in
  (forall n,
     (forall k, is_Some (extra !! k) ->
                http.CanonicalMIMEHeaderKey k <> http.CanonicalMIMEHeaderKey n) ->
     http.Get h n = http.Get base n) /\
  (forall k v,
     extra !! k = Some v ->
     (forall k', is_Some (extra !! k') ->
                 http.CanonicalMIMEHeaderKey k' = http.CanonicalMIMEHeaderKey k ->
                 k' = k) ->
     http.Get h k = v).
Proof.
  apply (map_fold_weak_ind
           (fun (h : http.Header) (m : gmap string string) =>
              (forall n,
                 (forall k, is_Some (m !! k) ->
                            http.CanonicalMIMEHeaderKey k <> http.CanonicalMIMEHeaderKey n) ->
                 http.Get h n = http.Get base n) /\
              (forall k v,
                 m !! k = Some v ->
                 (forall k', is_Some (m !! k') ->
                             http.CanonicalMIMEHeaderKey k' = http.CanonicalMIMEHeaderKey k ->
                             k' = k) ->
                 http.Get h k = v))).
  - split; [reflexivity |]. intros k v Hk. now rewrite lookup_empty in Hk.
  - intros i x m r Hi [IH1 IH2]. split.
    + intros n Hn. rewrite Get_Set_ne.
      * apply IH1. intros k Hk. apply Hn.
        destruct (decide (i = k)) as [-> |];
          [rewrite Hi in Hk; now destruct Hk | now rewrite lookup_insert_ne].
      * apply Hn. rewrite lookup_insert_eq. eauto.
    + intros k v Hk Hu. destruct (decide (i = k)) as [-> | Hne].
      * rewrite lookup_insert_eq in Hk. injection Hk as <-.
        now apply Get_Set_eq.
      * rewrite lookup_insert_ne in Hk by exact Hne.
        rewrite Get_Set_ne.
        -- apply IH2; [exact Hk |]. intros k' Hk' Hc. apply Hu; [| exact Hc].
           destruct (decide (i = k')) as [-> |];
             [rewrite Hi in Hk'; now destruct Hk' | now rewrite lookup_insert_ne].
        -- intros Hc. apply Hne, Hu; [| exact Hc].
           rewrite lookup_insert_eq. eauto.
Qed.

(** X12. The headers of the request [Generate] sends. Content-Type is
    application/json and Authorization is Bearer and the API key, unless a
    configured header has that name up to the case of its letters; and a
    configured header whose name no other configured header shares, up to
    case, has its configured value, also when it replaces one of the
    two. *)
Theorem Generate_request_headers w c ctx templateID request :
  let config := Client.config c in
  let header := Request.Header (requestOf w c ctx templateID request) in
  let free n :=
    forall extra k,
      Config.Headers config = Some extra -> is_Some (extra !! k) ->
      http.CanonicalMIMEHeaderKey k <> http.CanonicalMIMEHeaderKey n in
  (free "Content-Type" -> http.Get header "Content-Type" = "application/json") /\
  (free "Authorization" ->
   http.Get header "Authorization" = "Bearer " ++ Config.APIKey config) /\
  (forall extra k v,
     Config.Headers config = Some extra ->
     extra !! k = Some v ->
     (forall k', is_Some (extra !! k') ->
                 http.CanonicalMIMEHeaderKey k' = http.CanonicalMIMEHeaderKey k ->
                 k' = k) ->
     http.Get header k = v).
Proof.
  intros config header free. subst header. unfold requestOf. simpl Request.Header.
  unfold requestHeader. fold config.
  destruct (Config.Headers config) as [extra |] eqn:Hh.
  - destruct (Get_map_fold
                (http.Set_ (http.Set_ ∅ "Content-Type" "application/json")
                   "Authorization" ("Bearer " ++ Config.APIKey config))
                extra) as [H1 H2].
    split; [| split].
    + intros Hf. rewrite H1 by (intros k Hk; now apply (Hf extra)).
      rewrite Get_Set_ne by (vm_compute; discriminate).
      now apply Get_Set_eq.
    + intros Hf. rewrite H1 by (intros k Hk; now apply (Hf extra)).
      now apply Get_Set_eq.
    + intros extra' k v [= <-] Hk Hu. now apply H2.
  - split; [| split].
    + intros _. rewrite Get_Set_ne by (vm_compute; discriminate).
      now apply Get_Set_eq.
    + intros _. now apply Get_Set_eq.
    + intros extra k v [=].
Qed.

Lemma Generate_request_headers_witness :
  http.Get
    (Request.Header
       (requestOf (Sample.world (inr Sample.refused))
          {| Client.config :=
               {| Config.APIKey := "key"; Config.BaseURL := "https://x";
                  Config.Timeout := 10;
                  Config.Headers := Some {[ "authorization" := "Basic abc" ]};
                  Config.Debug := false |};
             Client.httpClient := {| HTTPClient.Timeout := 10000000000 |} |}
          Sample.background "tpl-1" None))
    "authorization"
  = "Basic abc".
Proof.
  apply (proj2 (proj2 (Generate_request_headers _ _ _ _ _))
           {[ "authorization" := "Basic abc" ]}).
  - reflexivity.
  - vm_compute. reflexivity.
  - intros k' [v Hk'] _.
    destruct (decide (k' = "authorization")) as [-> | Hne]; [reflexivity |].
    rewrite lookup_singleton_ne in Hk' by congruence. discriminate.
Defined.

(* ===================================================================== *)
(** ** The URL of the request *)

Lemma unhex_upperhex c :
  ascii_of_nat (unhex (url.upperhex (nat_of_ascii c / 16)) * 16
                + unhex (url.upperhex (nat_of_ascii c mod 16))) = c.
Proof.
  destruct c as [[] [] [] [] [] [] [] []]; vm_compute; reflexivity.
Qed.

Lemma shouldEscape_percent c : url.shouldEscape c = false -> Ascii.eqb c "%" = false.
Proof.
  destruct (Ascii.eqb_spec c "%") as [-> |]; [discriminate | reflexivity].
Qed.

Lemma PathEscape_cons c s :
  url.PathEscape (String c s) =
  if url.shouldEscape c
  then String "%" (String (url.upperhex (nat_of_ascii c / 16))
                     (String (url.upperhex (nat_of_ascii c mod 16))
                        (url.PathEscape s)))
  else String c (url.PathEscape s).
Proof. reflexivity. Qed.

(** An escaped segment reads back as the text it was made from. *)
Lemma unescape_PathEscape s : unescape (url.PathEscape s) = s.
Proof.
  induction s as [| c s IH]; [reflexivity |]. rewrite PathEscape_cons.
  destruct (url.shouldEscape c) eqn:Hc.
  - change (unescape (String "%" (String ?a (String ?b ?r))))
      with (String (ascii_of_nat (unhex a * 16 + unhex b)) (unescape r)).
    now rewrite unhex_upperhex, IH.
  - simpl unescape. now rewrite (shouldEscape_percent c Hc), IH.
Qed.

Lemma allBytes_cons ok c s : allBytes ok (String c s) = ok c && allBytes ok s.
Proof. reflexivity. Qed.

Lemma upperhex_alnum n : (n < 16)%nat -> url.is_alnum (url.upperhex n) = true.
Proof.
  intros H. do 16 (destruct n as [| n]; [reflexivity |]). lia.
Qed.

Lemma PathEscape_divides s :
  allBytes (fun c => negb (dividesURL c)) (url.PathEscape s) = true.
Proof.
  assert (Hal : forall c, url.is_alnum c = true -> dividesURL c = false).
  { intros c. destruct c as [[] [] [] [] [] [] [] []]; vm_compute; congruence. }
  assert (Hesc : forall c, url.shouldEscape c = false -> dividesURL c = false).
  { intros c. destruct c as [[] [] [] [] [] [] [] []]; vm_compute; congruence. }
  induction s as [| c s IH]; [reflexivity |]. rewrite PathEscape_cons.
  destruct (url.shouldEscape c) eqn:Hc; rewrite !allBytes_cons.
  - rewrite IH, (Hal (url.upperhex (nat_of_ascii c / 16))),
      (Hal (url.upperhex (nat_of_ascii c mod 16))); [reflexivity | |].
    + apply upperhex_alnum. apply Nat.mod_upper_bound. lia.
    + apply upperhex_alnum. apply Nat.Div0.div_lt_upper_bound.
      pose proof (nat_ascii_bounded c). lia.
  - now rewrite (Hesc c Hc), IH.
Qed.

Lemma string_app_inv_head (p a b : string) : p ++ a = p ++ b -> a = b.
Proof.
  induction p as [| c p IH]; [auto |].
  rewrite !string_app_cons. intros [= H]. auto.
Qed.

(** X13. The URL [Generate] posts to is the base URL of the client, the
    path /api/v1/generate/ and the escaped template ID. The escaped ID
    has no slash, question mark, hash, semicolon, comma or space, so that
    it is one path segment whatever the ID is; it is empty only for the
    empty ID; and two template IDs never give the same URL. *)
Theorem Generate_endpoint w c ctx templateID request :
  Request.URL (requestOf w c ctx templateID request)
    = Config.BaseURL (Client.config c) ++ "/api/v1/generate/"
      ++ url.PathEscape templateID /\
  allBytes (fun ch => negb (dividesURL ch)) (url.PathEscape templateID) = true /\
  (url.PathEscape templateID = "" -> templateID = "") /\
  (forall other,
     Request.URL (requestOf w c ctx other request)
       = Request.URL (requestOf w c ctx templateID request) ->
     other = templateID).
Proof.
  split; [reflexivity |]. split; [apply PathEscape_divides |]. split.
  - intros H. apply (f_equal unescape) in H.
    now rewrite unescape_PathEscape in H.
  - intros other H. unfold requestOf, endpoint in H. simpl in H.
    apply string_app_inv_head in H.
    change ("/api/v1/generate/" ++ ?x) with (String.append "/api/v1/generate/" x) in H.
    apply (string_app_inv_head "/api/v1/generate/") in H.
    apply (f_equal unescape) in H. now rewrite !unescape_PathEscape in H.
Qed.

Lemma Generate_endpoint_witness :
  Request.URL (requestOf (Sample.world (inr Sample.refused)) Sample.client
                 Sample.background "a/b?c" None)
    = "https://x/api/v1/generate/a%2Fb%3Fc" /\
  "a/b?c" <> "a%2Fb%3Fc".
Proof.
  split; [| discriminate].
  rewrite (proj1 (Generate_endpoint (Sample.world (inr Sample.refused))
                    Sample.client Sample.background "a/b?c" None)).
  vm_compute. reflexivity.
Defined.

(* ===================================================================== *)
(** ** encoding/json: plain strings *)

Lemma lex_cons st c rest out :
  json.lex st (String c rest) out =
  match json.lstep st c out with
  | Some (st', out') => json.lex st' rest out'
  | None => None
  end.
Proof. reflexivity. Qed.

Lemma plain_lstep c acc out :
  plain c = true ->
  json.lstep (json.LStr acc) c out = Some (json.LStr (json.Raw c :: acc), out).
Proof.
  unfold plain. intros H.
  apply andb_true_iff in H. destruct H as [H Hb].
  apply andb_true_iff in H. destruct H as [H Hq].
  apply andb_true_iff in H. destruct H as [Hlo _].
  apply negb_true_iff in Hb, Hq. apply Z.leb_le in Hlo.
  unfold json.lstep. rewrite Hq, Hb.
  destruct (Z.ltb_spec (utf8.code c) 32); [lia | reflexivity].
Qed.

(** Inside a string literal the lexer takes plain bytes as they are. *)
Lemma lex_plain s acc rest out :
  allBytes plain s = true ->
  json.lex (json.LStr acc) (s ++ rest) out
    = json.lex (json.LStr (rawsOnto s acc)) rest out.
Proof.
  revert acc. induction s as [| c s IH]; intros acc H; [reflexivity |].
  rewrite allBytes_cons in H. apply andb_true_iff in H. destruct H as [Hc Hs].
  rewrite string_app_cons, lex_cons, (plain_lstep c acc out Hc). simpl rawsOnto.
  now apply IH.
Qed.

Lemma lstep_close acc out :
  json.lstep (json.LStr acc) dquote out
    = Some (json.LStart, json.TStr (json.unquote (rev acc)) :: out).
Proof. reflexivity. Qed.

Lemma rev_rawsOnto s acc : rev (rawsOnto s acc) = (rev acc ++ raws s)%list.
Proof.
  revert acc. induction s as [| c s IH]; intros acc; simpl.
  - now rewrite app_nil_r.
  - rewrite IH. simpl. now rewrite <- app_assoc.
Qed.

Lemma decodeUnits_raws s : json.decodeUnits (raws s) = s.
Proof. induction s as [| c s IH]; simpl; [reflexivity | now rewrite IH]. Qed.

Lemma plain_ascii c : plain c = true -> utf8.within 0 127 c = true.
Proof.
  unfold plain, utf8.within. intros H.
  apply andb_true_iff in H. destruct H as [H _].
  apply andb_true_iff in H. destruct H as [H _].
  apply andb_true_iff in H. destruct H as [Hlo Hhi].
  apply Z.leb_le in Hlo. apply Z.ltb_lt in Hhi.
  apply andb_true_iff. split; [apply Z.leb_le | apply Z.leb_le]; lia.
Qed.

Lemma ToValid_plain s : allBytes plain s = true -> utf8.ToValid s = s.
Proof.
  induction s as [| c s IH]; [reflexivity |]. rewrite allBytes_cons.
  intros H. apply andb_true_iff in H. destruct H as [Hc Hs].
  simpl. now rewrite (plain_ascii c Hc), IH.
Qed.

(** A literal of plain bytes denotes the text between its quotes. *)
Lemma unquote_plain s :
  allBytes plain s = true -> json.unquote (rev (rawsOnto s [])) = s.
Proof.
  intros H. unfold json.unquote. rewrite rev_rawsOnto. simpl.
  rewrite decodeUnits_raws. now apply ToValid_plain.
Qed.

(** One byte of a text whose start is known. *)
Ltac lex_step :=
  rewrite lex_cons;
  match goal with
  | |- context [json.lstep ?st ?c ?out] =>
      let v := eval vm_compute in (json.lstep st c out) in
      change (json.lstep st c out) with v
  end;
  cbv beta match.

(** A literal of plain bytes, from after its opening quote to after its
    closing quote. *)
Lemma lex_literal s rest out :
  allBytes plain s = true ->
  json.lex (json.LStr []) (s ++ String dquote rest) out
    = json.lex json.LStart rest (json.TStr s :: out).
Proof.
  intros H. rewrite (lex_plain s [] _ out H), lex_cons, lstep_close.
  now rewrite (unquote_plain s H).
Qed.

Lemma quoted_app s r : quoted s ++ r = String dquote (s ++ String dquote r).
Proof.
  unfold quoted. now rewrite string_app_cons, string_app_assoc.
Qed.

Lemma lex_errorJSON code message :
  allBytes plain code = true ->
  allBytes plain message = true ->
  json.lex json.LStart (errorJSON code message) []
    = Some [json.TLBrace; json.TStr "error"; json.TColon; json.TStr code;
            json.TComma; json.TStr "message"; json.TColon; json.TStr message;
            json.TRBrace].
Proof.
  intros Hc Hm. unfold errorJSON. rewrite !quoted_app.
  change ("{" ++ ?r) with (String "{" r).
  repeat (progress change (":" ++ ?r) with (String ":" r)).
  change ("," ++ ?r) with (String "," r).
  do 2 lex_step. rewrite lex_literal by reflexivity.
  do 2 lex_step. rewrite (lex_literal code) by exact Hc.
  do 2 lex_step. rewrite lex_literal by reflexivity.
  do 2 lex_step. rewrite (lex_literal message) by exact Hm.
  lex_step. reflexivity.
Qed.

(** The body with the two members decodes to the two texts. *)
Lemma Unmarshal_errorJSON code message :
  allBytes plain code = true ->
  allBytes plain message = true ->
  Unmarshal.into (bytes_of_string (errorJSON code message)) APIErrorResponse.zero
    = ({| APIErrorResponse.Error := code;
          APIErrorResponse.Message := message;
          APIErrorResponse.Details := json.Null |}, None).
Proof.
  intros Hc Hm. unfold Unmarshal.into, string_of_bytes, bytes_of_string.
  rewrite string_of_list_byte_of_string. unfold json.parse.
  rewrite (lex_errorJSON code message Hc Hm). reflexivity.
Qed.

(** X14. For every status and for every code and message made of
    printable ASCII bytes other than the double quote and the backslash,
    the classifier, given the body with the members error and message,
    returns an error with that status, that code, that message and nil
    details: as it is for every status but 429, in a rate-limit error for
    429. *)
Theorem parseErrorResponse_decodes c resp code message :
  allBytes plain code = true ->
  allBytes plain message = true ->
  fst (Response.Body resp) = bytes_of_string (errorJSON code message) ->
  let e :=
    {| APIError.StatusCode := Response.StatusCode resp;
       APIError.ErrorCode := code;
       APIError.Message := message;
       APIError.Details := json.Null |} in
  apiError (parseErrorResponse c resp) = Some e /\
  (Response.StatusCode resp <> 429 -> parseErrorResponse c resp = EAPI e).
Proof.
  intros Hc Hm Hb e.
  destruct (parseErrorResponse_eq c resp) as (b & Hp & Hd & _).
  rewrite Hb in Hd.
  rewrite (Hd _ (Unmarshal_errorJSON code message Hc Hm)) in Hp.
  rewrite Hp. split.
  - now destruct (_ =? 429).
  - intros Hne. apply Z.eqb_neq in Hne. now rewrite Hne.
Qed.

Lemma parseErrorResponse_decodes_witness :
  parseErrorResponse Sample.client
    (Sample.response "403 Forbidden" 403 [] (errorJSON "Forbidden" "no access"))
  = EAPI {| APIError.StatusCode := 403;
            APIError.ErrorCode := "Forbidden";
            APIError.Message := "no access";
            APIError.Details := json.Null |}.
Proof.
  apply (parseErrorResponse_decodes Sample.client
           (Sample.response "403 Forbidden" 403 [] (errorJSON "Forbidden" "no access"))
           "Forbidden" "no access");
    (reflexivity || discriminate).
Defined.

(* ===================================================================== *)
(** ** Bodies of another shape *)

(** Once a member has been refused, the decoding reports it whatever
    comes after. *)
Lemma member_sticky acc m e :
  snd acc = Some e -> snd (Unmarshal.member acc m) = Some e.
Proof.
  destruct acc as [dst err], m as [k v]. unfold Unmarshal.member.
  cbn [snd]. intros ->.
  destruct (json.selects k "error"); [now destruct v |].
  destruct (json.selects k "message"); [now destruct v |].
  destruct (json.selects k "details"); [| reflexivity].
  cbn [snd]. now destruct (json.numbersFit v).
Qed.

Lemma members_sticky ms acc e :
  snd acc = Some e -> snd (fold_left Unmarshal.member ms acc) = Some e.
Proof.
  revert acc. induction ms as [| m ms IH]; intros acc H; [exact H |].
  simpl. apply IH. now apply member_sticky.
Qed.

Lemma member_refused acc k v :
  json.selects k "error" || json.selects k "message" = true ->
  isStrOrNull v = false ->
  snd (Unmarshal.member acc (k, v)) <> None.
Proof.
  destruct acc as [dst err]. unfold Unmarshal.member. intros Hk Hv.
  destruct (json.selects k "error").
  - destruct v, err; simpl in *; congruence.
  - simpl in Hk. rewrite Hk. destruct v, err; simpl in *; congruence.
Qed.

Lemma members_refused ms acc k v :
  In (k, v) ms ->
  json.selects k "error" || json.selects k "message" = true ->
  isStrOrNull v = false ->
  snd (fold_left Unmarshal.member ms acc) <> None.
Proof.
  revert acc. induction ms as [| m ms IH]; intros acc Hin Hk Hv; [destruct Hin |].
  simpl. destruct Hin as [-> | Hin].
  - destruct (snd (Unmarshal.member acc (k, v))) as [e |] eqn:E.
    + now rewrite (members_sticky ms _ e E).
    + now apply member_refused in E.
  - now apply IH.
Qed.

Lemma members_skipped ms acc :
  (forall k v, In (k, v) ms ->
     json.selects k "error" = false /\ json.selects k "message" = false /\
     json.selects k "details" = false) ->
  fold_left Unmarshal.member ms acc = acc.
Proof.
  revert acc. induction ms as [| [k v] ms IH]; intros acc H; [reflexivity |].
  simpl fold_left. destruct (H k v (or_introl eq_refl)) as (He & Hm & Hd).
  destruct acc as [dst err]. unfold Unmarshal.member. rewrite He, Hm, Hd.
  apply IH. intros k' v' Hin. apply (H k' v'). now right.
Qed.

Lemma parseErrorResponse_refused c resp e :
  snd (Unmarshal.into (fst (Response.Body resp)) APIErrorResponse.zero) = Some e ->
  apiError (parseErrorResponse c resp) = Some (fallbackError resp).
Proof.
  intros H. destruct (parseErrorResponse_eq c resp) as (b & Hp & _ & Hf).
  destruct (Unmarshal.into _ _) as [d o] eqn:E. simpl in H. subst o.
  rewrite (Hf d e eq_refl) in Hp. rewrite Hp. now destruct (_ =? 429).
Qed.

Lemma parseErrorResponse_blank c resp :
  Unmarshal.into (fst (Response.Body resp)) APIErrorResponse.zero
    = (APIErrorResponse.zero, None) ->
  apiError (parseErrorResponse c resp) = Some (blankError resp).
Proof.
  intros H. destruct (parseErrorResponse_eq c resp) as (b & Hp & Hd & _).
  rewrite (Hd _ H) in Hp. rewrite Hp. now destruct (_ =? 429).
Qed.

(** X15. Bodies that are JSON but not the expected object. A body that
    is an array, a string, a number or a boolean, and an object in which
    a member named error or message (up to case) has a value that is
    neither a string nor null, give the same error as a body that is not
    JSON: the code Unknown Error and the status line, whatever the other
    members say. The body null, and an object none of whose members is
    named error, message or details, give an error whose code and message
    are both empty. *)
Theorem parseErrorResponse_other_shapes c resp (v : json.Value) :
  json.parse (string_of_bytes (fst (Response.Body resp))) = Some v ->
  (match v with json.Null | json.Object _ => False | _ => True end ->
   apiError (parseErrorResponse c resp) = Some (fallbackError resp)) /\
  (forall ms k x,
     v = json.Object ms -> In (k, x) ms ->
     json.selects k "error" || json.selects k "message" = true ->
     isStrOrNull x = false ->
     apiError (parseErrorResponse c resp) = Some (fallbackError resp)) /\
  (v = json.Null ->
   apiError (parseErrorResponse c resp) = Some (blankError resp)) /\
  (forall ms,
     v = json.Object ms ->
     (forall k x, In (k, x) ms ->
        json.selects k "error" = false /\ json.selects k "message" = false /\
        json.selects k "details" = false) ->
     apiError (parseErrorResponse c resp) = Some (blankError resp)).
Proof.
  intros Hv. split; [| split; [| split]].
  - intros Hshape. apply (parseErrorResponse_refused c resp json.UnmarshalTypeError).
    unfold Unmarshal.into. rewrite Hv. now destruct v.
  - intros ms k x -> Hin Hk Hx.
    destruct (snd (Unmarshal.into (fst (Response.Body resp)) APIErrorResponse.zero))
      as [e |] eqn:E; [now apply (parseErrorResponse_refused c resp e) |].
    unfold Unmarshal.into in E. rewrite Hv in E.
    now apply (members_refused ms _ k x Hin Hk Hx) in E.
  - intros ->. apply parseErrorResponse_blank.
    unfold Unmarshal.into. now rewrite Hv.
  - intros ms -> Hskip. apply parseErrorResponse_blank.
    unfold Unmarshal.into. rewrite Hv. now apply members_skipped.
Qed.

Lemma parseErrorResponse_other_shapes_witness :
  apiError (parseErrorResponse Sample.client
              (Sample.response "500 Internal Server Error" 500 []
                 (q "{'error':'Boom','message':{'text':'down'}}")))
  = Some {| APIError.StatusCode := 500;
            APIError.ErrorCode := "Unknown Error";
            APIError.Message := "500 Internal Server Error";
            APIError.Details := json.Null |}.
Proof.
  apply (proj1 (proj2 (parseErrorResponse_other_shapes Sample.client
                         (Sample.response "500 Internal Server Error" 500 []
                            (q "{'error':'Boom','message':{'text':'down'}}"))
                         (json.Object
                            [("error", json.Str "Boom");
                             ("message", json.Object [("text", json.Str "down")])])
                         ltac:(vm_compute; reflexivity)))
           [("error", json.Str "Boom");
            ("message", json.Object [("text", json.Str "down")])]
           "message" (json.Object [("text", json.Str "down")])).
  - reflexivity.
  - right. left. reflexivity.
  - vm_compute. reflexivity.
  - reflexivity.
Defined.

(* ===================================================================== *)
(** ** Statuses and categories *)

Lemma categoriesOf_status (e : APIError.t) :
  categoriesOf e = if hasCategory (APIError.StatusCode e) then 1%nat else 0%nat.
Proof.
  unfold categoriesOf, categories, hasCategory. simpl.
  unfold APIError.IsValidationError, APIError.IsAuthenticationError,
    APIError.IsForbiddenError, APIError.IsNotFoundError,
    APIError.IsRateLimitError, APIError.IsServerError.
  destruct (Z.eqb_spec (APIError.StatusCode e) 400);
    destruct (Z.eqb_spec (APIError.StatusCode e) 401);
    destruct (Z.eqb_spec (APIError.StatusCode e) 403);
    destruct (Z.eqb_spec (APIError.StatusCode e) 404);
    destruct (Z.eqb_spec (APIError.StatusCode e) 429);
    destruct (Z.leb_spec 500 (APIError.StatusCode e)); simpl; lia.
Qed.

(** X16. The error the classifier returns carries the status code of the
    response, whatever the body is, and it has one category when the
    status is 400, 401, 403, 404, 429 or 500 and above, and none
    otherwise: a 402, a 409, a 422, a redirect or a 2xx other than 200 is
    an API error of no category. *)
Theorem parseErrorResponse_category c resp :
  exists e,
    apiError (parseErrorResponse c resp) = Some e /\
    APIError.StatusCode e = Response.StatusCode resp /\
    categoriesOf e
      = (if hasCategory (Response.StatusCode resp) then 1%nat else 0%nat) /\
    (APIError.IsServerError e = true <-> 500 <= Response.StatusCode resp) /\
    (hasCategory (Response.StatusCode resp) = false ->
     forall p, In p categories -> p e = false).
Proof.
  destruct (parseErrorResponse_eq c resp) as (b & Hp & _).
  exists (apiErrorOf resp b). split; [rewrite Hp; now destruct (_ =? 429) |].
  split; [reflexivity |]. split; [apply categoriesOf_status |]. split.
  - unfold APIError.IsServerError. simpl. apply Z.leb_le.
  - intros Hno p Hin.
    pose proof (categoriesOf_status (apiErrorOf resp b)) as Hc.
    simpl APIError.StatusCode in Hc. rewrite Hno in Hc.
    unfold categoriesOf in Hc.
    destruct (p (apiErrorOf resp b)) eqn:Hpe; [| reflexivity].
    assert (Hin' : In p (List.filter (fun p => p (apiErrorOf resp b)) categories))
      by (apply List.filter_In; now split).
    destruct (List.filter _ categories); [destruct Hin' | discriminate].
Qed.

Lemma parseErrorResponse_category_witness :
  exists e,
    apiError (parseErrorResponse Sample.client
                (Sample.response "409 Conflict" 409 [] "{}")) = Some e /\
    APIError.StatusCode e = 409 /\
    categoriesOf e = 0%nat /\
    APIError.IsValidationError e = false.
Proof.
  destruct (parseErrorResponse_category Sample.client
              (Sample.response "409 Conflict" 409 [] "{}"))
    as (e & He & Hs & Hc & _ & Hnone).
  exists e. split; [exact He |]. split; [exact Hs |]. split; [exact Hc |].
  apply (Hnone eq_refl). left. reflexivity.
Defined.

(** X17. The four constructors of errors.go agree with the predicates:
    the error each one builds, whatever its message, satisfies the
    predicate of its own category and no other, and the three without a
    details argument have nil details. *)
Theorem constructors_categories (message : string) (details : json.Value) :
  (APIError.IsValidationError (NewValidationError message details) = true /\
   categoriesOf (NewValidationError message details) = 1%nat /\
   APIError.Details (NewValidationError message details) = details) /\
  (APIError.IsAuthenticationError (NewAuthenticationError message) = true /\
   categoriesOf (NewAuthenticationError message) = 1%nat /\
   APIError.Details (NewAuthenticationError message) = json.Null) /\
  (APIError.IsForbiddenError (NewForbiddenError message) = true /\
   categoriesOf (NewForbiddenError message) = 1%nat /\
   APIError.Details (NewForbiddenError message) = json.Null) /\
  (APIError.IsNotFoundError (NewNotFoundError message) = true /\
   categoriesOf (NewNotFoundError message) = 1%nat /\
   APIError.Details (NewNotFoundError message) = json.Null) /\
  APIError.Message (NewValidationError message details) = message /\
  APIError.Message (NewAuthenticationError message) = message /\
  APIError.Message (NewForbiddenError message) = message /\
  APIError.Message (NewNotFoundError message) = message.
Proof. repeat split. Qed.

(* ===================================================================== *)
(** ** Retry-After *)

Lemma ParseInt_not_number s :
  beginsNumber s = false -> strconv.ParseInt s = (0, Some strconv.ErrSyntax).
Proof.
  unfold beginsNumber, beginsWith, strconv.ParseInt.
  destruct s as [| c rest]; [reflexivity |]. intros H.
  apply orb_false_iff in H. destruct H as [H Hminus].
  apply orb_false_iff in H. destruct H as [Hd Hplus].
  rewrite Hplus, Hminus. simpl. now rewrite Hd.
Qed.

(** X18. The seconds of a rate-limit error. For a 429 response the error
    carries the value of the Retry-After header when that is a decimal
    numeral (cut at the largest int), the negated value when a minus sign
    comes first, so that the seconds can be negative, and 0 when the
    header begins with anything but a digit or a sign, as the HTTP date
    the header may also hold does. *)
Theorem parseErrorResponse_retry_after c resp :
  Response.StatusCode resp = 429 ->
  let header := http.Get (Response.Header resp) "Retry-After" in
  exists seconds,
    retryAfter (parseErrorResponse c resp) = Some seconds /\
    Int64.in_range seconds /\
    (isNumeral header = true -> seconds = Z.min (decimal header) Int64.max) /\
    (forall s, header = String "-" s -> isNumeral s = true ->
               seconds = Z.max (- decimal s) Int64.min) /\
    (beginsNumber header = false -> seconds = 0).
Proof.
  intros Hs header.
  destruct (parseErrorResponse_eq c resp) as (b & Hp & _).
  rewrite Hs in Hp. simpl in Hp. rewrite Hp. simpl retryAfter.
  fold header. unfold strconv.Atoi. eexists. split; [reflexivity |].
  split; [apply ParseInt_in_range |]. split; [apply ParseInt_numeral_min |].
  split.
  - intros s -> Hn. now apply ParseInt_negative_max.
  - intros Hb. now rewrite (ParseInt_not_number _ Hb).
Qed.

Lemma parseErrorResponse_retry_after_witness :
  retryAfter
    (parseErrorResponse Sample.client
       (Sample.response "429 Too Many Requests" 429
          [("Retry-After", "Wed, 21 Oct 2015 07:28:00 GMT")] "{}"))
  = Some 0.
Proof.
  destruct (parseErrorResponse_retry_after Sample.client
              (Sample.response "429 Too Many Requests" 429
                 [("Retry-After", "Wed, 21 Oct 2015 07:28:00 GMT")] "{}")
              eq_refl) as (seconds & Hr & _ & _ & _ & Hz).
  rewrite Hr, (Hz ltac:(vm_compute; reflexivity)). reflexivity.
Defined.

(* ===================================================================== *)
(** ** The file name of a result *)

(** X19. The file name of every result is not empty and has no double
    quote, no semicolon and no line feed: it is the group of a match, or
    document.pdf. *)
Theorem Generate_filename_invariant w c ctx templateID request r :
  outcome (Generate w c ctx templateID request) = inl r ->
  GenerateResponse.Filename r <> "" /\
  allBytes groupByte (GenerateResponse.Filename r) = true.
Proof.
  intros H. pose proof H as H0.
  apply Generate_result_inv in H0.
  destruct H0 as (resp & Hd & Hs & Hb).
  rewrite (Generate_dispatches _ _ _ _ _ _ Hd) in H.
  unfold afterDispatch in H. rewrite Hs, Hb in H. simpl negb in H. cbv iota in H.
  injection H as <-. simpl GenerateResponse.Filename.
  unfold regexp.FindStringSubmatch.
  destruct (regexp.find filenameRe _) as [[whole g] |] eqn:E.
  - apply find_filenameRe in E. destruct E as (Hne & Hg & _).
    split; [exact Hne | exact Hg].
  - split; [discriminate | reflexivity].
Qed.

Lemma Generate_filename_invariant_witness :
  "report 1.pdf" <> "" /\ allBytes groupByte "report 1.pdf" = true.
Proof.
  apply (Generate_filename_invariant
           (Sample.world
              (inl (Sample.response "200 OK" 200
                      [("Content-Disposition", "attachment; filename=report 1.pdf")]
                      Sample.pdf)))
           Sample.client Sample.background "tpl-1" None
           {| GenerateResponse.PDF := bytes_of_string Sample.pdf;
              GenerateResponse.Filename := "report 1.pdf";
              GenerateResponse.GenerationTimeMs := 0;
              GenerateResponse.ContentLength := 8 |}).
  vm_compute. reflexivity.
Defined.

(* ===================================================================== *)
(** ** From the configuration to the request *)

(** X20. A client built by [New] and then used. The request goes to the
    base URL of the configuration without one trailing slash, or to the
    default base URL when the configuration has none; without configured
    headers it carries the two headers of the client and no other; and
    when the dispatch fails after the deadline of the context, the
    timeout error carries the timeout of the configuration when that is
    positive and 30 when it is not. *)
Theorem New_then_Generate config c w ctx templateID request :
  New config = inl c ->
  Request.URL (requestOf w c ctx templateID request)
    = (if String.eqb (Config.BaseURL config) ""
       then "https://api.documentstack.dev"
       else strings.TrimSuffix (Config.BaseURL config) "/")
      ++ "/api/v1/generate/" ++ url.PathEscape templateID /\
  (Config.Headers config = None ->
   Request.Header (requestOf w c ctx templateID request)
     = {[ "Content-Type" := ["application/json"];
          "Authorization" := ["Bearer " ++ Config.APIKey config] ]}) /\
  (forall cause,
     dispatches w c ctx templateID request (inr cause) ->
     Context.Err ctx = Some context_DeadlineExceeded ->
     outcome (Generate w c ctx templateID request)
       = inr (ETimeout
                {| TimeoutError.Timeout :=
                     if Config.Timeout config <=? 0 then 30
                     else Config.Timeout config |})).
Proof.
  unfold New. destruct (String.eqb (Config.APIKey config) ""); [discriminate |].
  intros [= <-]. split; [| split].
  - unfold requestOf, endpoint. simpl.
    now destruct (String.eqb (Config.BaseURL config) "").
  - intros Hh. unfold requestOf, requestHeader. simpl. rewrite Hh.
    rewrite map_fold_empty. unfold http.Set_.
    change (http.CanonicalMIMEHeaderKey "Content-Type") with "Content-Type".
    change (http.CanonicalMIMEHeaderKey "Authorization") with "Authorization".
    rewrite insert_empty. apply insert_insert_ne. discriminate.
  - intros cause Hd Hctx.
    rewrite (Generate_dispatches _ _ _ _ _ _ Hd). simpl. now rewrite Hctx.
Qed.

Lemma New_then_Generate_witness :
  Request.URL (requestOf (Sample.world (inr Sample.refused)) Sample.client
                 Sample.background "tpl-1" None)
    = "https://x/api/v1/generate/tpl-1".
Proof.
  rewrite (proj1 (New_then_Generate Sample.config Sample.client
                    (Sample.world (inr Sample.refused)) Sample.background
                    "tpl-1" None eq_refl)).
  vm_compute. reflexivity.
Defined.

(* ===================================================================== *)
(** ** Numbers under details *)

Lemma selects_details k :
  json.selects k "details" = true ->
  json.selects k "error" = false /\ json.selects k "message" = false.
Proof.
  unfold json.selects. intros H. apply orb_true_iff in H.
  destruct H as [H | H]; apply String.eqb_eq in H.
  - subst k. split; vm_compute; reflexivity.
  - rewrite H. split.
    + destruct (String.eqb_spec k "error") as [-> |];
        [vm_compute in H; discriminate | vm_compute; reflexivity].
    + destruct (String.eqb_spec k "message") as [-> |];
        [vm_compute in H; discriminate | vm_compute; reflexivity].
Qed.

Lemma member_overflow acc k v :
  json.selects k "details" = true ->
  json.numbersFit v = false ->
  snd (Unmarshal.member acc (k, v)) <> None.
Proof.
  intros Hk Hv. destruct (selects_details k Hk) as [He Hm].
  destruct acc as [dst err]. unfold Unmarshal.member.
  rewrite He, Hm, Hk, Hv. cbn [snd]. now destruct err.
Qed.

Lemma members_overflow ms acc k v :
  In (k, v) ms ->
  json.selects k "details" = true ->
  json.numbersFit v = false ->
  snd (fold_left Unmarshal.member ms acc) <> None.
Proof.
  revert acc. induction ms as [| m ms IH]; intros acc Hin Hk Hv; [destruct Hin |].
  simpl fold_left. destruct Hin as [-> | Hin].
  - destruct (snd (Unmarshal.member acc (k, v))) as [e |] eqn:E.
    + now rewrite (members_sticky ms _ e E).
    + now apply member_overflow in E.
  - now apply IH.
Qed.

(** X21. A number too large for a float64 under details. When the body
    is an object with a member named details (up to case) whose value
    holds, at any depth, a number that [ParseFloat] cannot convert, the
    decoding reports an error and the classifier returns the same error
    as for a body that is not JSON, the code Unknown Error and the status
    line, whatever the members error and message say. *)
Theorem parseErrorResponse_details_overflow c resp ms k x :
  json.parse (string_of_bytes (fst (Response.Body resp))) = Some (json.Object ms) ->
  In (k, x) ms ->
  json.selects k "details" = true ->
  json.numbersFit x = false ->
  apiError (parseErrorResponse c resp) = Some (fallbackError resp).
Proof.
  intros Hv Hin Hk Hx.
  destruct (snd (Unmarshal.into (fst (Response.Body resp)) APIErrorResponse.zero))
    as [e |] eqn:E; [now apply (parseErrorResponse_refused c resp e) |].
  unfold Unmarshal.into in E. rewrite Hv in E.
  now apply (members_overflow ms _ k x Hin Hk Hx) in E.
Qed.

Lemma parseErrorResponse_details_overflow_witness :
  apiError (parseErrorResponse Sample.client
              (Sample.response "429 Too Many Requests" 429 [("Retry-After", "5")]
                 (q "{'error':'RateLimited','message':'slow down','details':1e400}")))
  = Some {| APIError.StatusCode := 429;
            APIError.ErrorCode := "Unknown Error";
            APIError.Message := "429 Too Many Requests";
            APIError.Details := json.Null |}.
Proof.
  apply (parseErrorResponse_details_overflow Sample.client
           (Sample.response "429 Too Many Requests" 429 [("Retry-After", "5")]
              (q "{'error':'RateLimited','message':'slow down','details':1e400}"))
           [("error", json.Str "RateLimited"); ("message", json.Str "slow down");
            ("details", json.Number "1e400")]
           "details" (json.Number "1e400")).
  - vm_compute. reflexivity.
  - right. right. left. reflexivity.
  - vm_compute. reflexivity.
  - vm_compute. reflexivity.
Defined.
